(** * Conversation engine of the Roblox Architect chat front-end

    A shallow embedding of the conversation state handling of [App.tsx]
    ([handleSend], [handleEditSave], [handleEditClick], [startNewChat]),
    of the prompt composer [sendMessageToGemini] / [getModelName]
    (services/gemini) and of the local session store [dbService]
    (services/storage), followed by the properties the specification
    states about them. The other handlers of [App.tsx] ([loadSession],
    [deleteSession], [handleFileUpload], [removeAttachment],
    [handleCodeAction]), the rest of [dbService] and [fileToAttachment]
    of utils.ts are embedded as well, with further properties at the end.

    Conventions of the embedding:
    - a JavaScript string is the list of its UTF-16 code units;
    - [string | null] and optional fields are [option];
    - React state is an explicit record; a handler is a function from the
      engine state to the engine state, and reads the state committed by
      the previous event;
    - [generateId()] and [Date.now()] are supplied by the caller of a
      handler (one identifier per [generateId()] call, one clock reading
      per handler turn);
    - an [await] on the remote model splits a handler in two: the part up
      to the call, which leaves a pending continuation in the engine, and
      the continuation itself, run by [resolve]. *)

From Stdlib Require Import ZArith NArith Ascii String Sorted.
From stdpp Require Import base tactics option numbers list.

Local Open Scope nat_scope.

(** ** JavaScript strings *)

Module JS.

(** A UTF-16 code unit. *)
Abbreviation char16 := N (only parsing).
Abbreviation jsstring := (list N) (only parsing).

(** String literal of the source (all literals used here are ASCII). *)
Definition lit (s : string) : jsstring :=
  N_of_ascii <$> list_ascii_of_string s.

Definition nl : jsstring := [10%N].

(** Truthiness of a string value: only the empty string is falsy. *)
Definition truthy (s : jsstring) : bool :=
  match s with [] => false | _ :: _ => true end.

(** Truthiness of [string | null | undefined]. *)
Definition truthy_opt (o : option jsstring) : bool :=
  match o with Some s => truthy s | None => false end.

(** [a || b] on strings. *)
Definition or_else (o : option jsstring) (d : jsstring) : jsstring :=
  match o with
  | Some s => if truthy s then s else d
  | None => d
  end.

(** ECMAScript WhiteSpace and LineTerminator code points, the ones
    [String.prototype.trim] strips. *)
Definition isWhiteSpace (c : char16) : bool :=
  ((9 <=? c) && (c <=? 13) ||
   (c =? 32) || (c =? 160) || (c =? 5760) ||
   (8192 <=? c) && (c <=? 8202) ||
   (c =? 8232) || (c =? 8233) || (c =? 8239) || (c =? 8287) ||
   (c =? 12288) || (c =? 65279))%N.

Fixpoint trimStart (s : jsstring) : jsstring :=
  match s with
  | [] => []
  | c :: s' => if isWhiteSpace c then trimStart s' else s
  end.

Definition trimEnd (s : jsstring) : jsstring :=
  reverse (trimStart (reverse s)).

Definition trim (s : jsstring) : jsstring := trimEnd (trimStart s).

(** [s.slice(0, n)] for a non-negative literal [n]. *)
Definition slice0 (n : nat) (s : jsstring) : jsstring := take n s.

(** [arr.join(sep)] on an array of strings. *)
Fixpoint join (sep : jsstring) (l : list jsstring) : jsstring :=
  match l with
  | [] => []
  | [x] => x
  | x :: rest => x ++ sep ++ join sep rest
  end.

(** A template literal that opens with a line break and whose every
    line ends with one. *)
Definition template (lines : list string) : jsstring :=
  nl ++ concat ((fun l => lit l ++ nl) <$> lines).

(** Empty or made of white space only. *)
Definition blank (s : jsstring) : Prop := Forall (fun c => isWhiteSpace c = true) s.

(** [s.split(sep)] for a separator of one code unit. *)
Fixpoint split (sep : char16) (s : jsstring) : list jsstring :=
  match s with
  | [] => [[]]
  | c :: s' =>
      if (c =? sep)%N then [] :: split sep s'
      else match split sep s' with
           | piece :: pieces => (c :: piece) :: pieces
           | [] => [[c]]
           end
  end.

(** [arr.sort(cmp)]. The sort of ECMAScript is stable, so for a
    comparator that orders by a numeric key the result is the one of any
    stable sort; this one inserts from the right, and puts [x] behind
    [y] only when [cmp x y > 0]. *)
Fixpoint insertSorted {A} (cmp : A -> A -> Z) (x : A) (l : list A) : list A :=
  match l with
  | [] => [x]
  | y :: l' => if (0 <? cmp x y)%Z then y :: insertSorted cmp x l' else x :: l
  end.

Definition sort {A} (cmp : A -> A -> Z) (l : list A) : list A :=
  foldr (insertSorted cmp) [] l.

(** [arr.filter((x, i) => p x i)], with [i] counted from [start]. *)
Fixpoint filterFrom {A} (p : A -> nat -> bool) (start : nat) (l : list A) : list A :=
  match l with
  | [] => []
  | x :: l' =>
      if p x start then x :: filterFrom p (S start) l' else filterFrom p (S start) l'
  end.

Definition filteri {A} (p : A -> nat -> bool) (l : list A) : list A :=
  filterFrom p 0 l.

End JS.

Import JS.

(** ** types.ts *)

Record Attachment := mkAttachment {
  att_name : jsstring;
  att_mimeType : jsstring;
  att_data : jsstring
}.

#[global] Instance Attachment_eq_dec : EqDecision Attachment.
Proof. solve_decision. Defined.

Inductive Role := user | model.

#[global] Instance Role_eq_dec : EqDecision Role.
Proof. solve_decision. Defined.

Record Message := mkMessage {
  msg_id : jsstring;
  msg_role : Role;
  msg_content : jsstring;
  msg_attachments : option (list Attachment);
  msg_isThinking : option bool;
  msg_timestamp : Z
}.

#[global] Instance Message_eq_dec : EqDecision Message.
Proof. solve_decision. Defined.

Record User := mkUser {
  user_id : jsstring;
  user_username : jsstring;
  user_avatar : option jsstring
}.

Record ChatSession := mkChatSession {
  cs_id : jsstring;
  cs_userId : jsstring;
  cs_title : jsstring;
  cs_messages : list Message;
  cs_lastUpdated : Z
}.

(** [{ ...m, content: c }] *)
Definition with_content (m : Message) (c : jsstring) : Message :=
  {| msg_id := msg_id m; msg_role := msg_role m; msg_content := c;
     msg_attachments := msg_attachments m; msg_isThinking := msg_isThinking m;
     msg_timestamp := msg_timestamp m |}.

(** Errors that travel as JavaScript exceptions or promise rejections. *)
Inductive Exn :=
| Error (message : jsstring)      (* [new Error(message)] of this code base *)
| SyntaxError                     (* [JSON.parse] on a malformed item *)
| QuotaExceededError              (* [localStorage.setItem] *)
| TransportError                  (* the remote call could not be made *)
| RemoteError (status : Z).       (* the remote side answered with a failure *)

(** ** utils.ts *)

Module Utils.

(** A [File] as [fileToAttachment] and [handleFileUpload] see it: its
    name, type and size, and what [reader.readAsDataURL] ends with,
    [Some] result for [onload] and [None] for [onerror]. *)
Record File := mkFile {
  file_name : jsstring;
  file_type : jsstring;
  file_size : Z;
  file_dataURL : option jsstring
}.

(** The object the promise resolves with; [data] is [undefined] when the
    reader result has no comma. *)
Record Encoded := mkEncoded {
  enc_name : jsstring;
  enc_mimeType : jsstring;
  enc_data : option jsstring
}.

(** [base64String.split(',')[1]] *)
Definition base64Data (base64String : jsstring) : option jsstring :=
  split 44%N base64String !! 1.

(** [None] stands for the rejected promise. *)
Definition fileToAttachment (file : File) : option Encoded :=
  match file_dataURL file with
  | Some base64String =>
      Some {| enc_name := file_name file;
              enc_mimeType := file_type file;
              enc_data := base64Data base64String |}
  | None => None
  end.

(** The data URL of a payload, as a browser writes it. *)
Definition dataURL (mime payload : jsstring) : jsstring :=
  lit "data:" ++ mime ++ lit ";base64," ++ payload.

(** [`data:${att.mimeType};base64,${att.data}`], the image source that
    App.tsx builds from an attachment. *)
Definition imageSrc (att : Attachment) : jsstring :=
  lit "data:" ++ att_mimeType att ++ lit ";base64," ++ att_data att.

(** An [Encoded] whose data is defined is an [Attachment]. *)
Definition asAttachment (enc : Encoded) : option Attachment :=
  match enc_data enc with
  | Some d => Some {| att_name := enc_name enc; att_mimeType := enc_mimeType enc;
                      att_data := d |}
  | None => None
  end.

End Utils.

(** ** services/gemini: the prompt composer *)

Module Gemini.

Definition getModelName (deepThink : bool) : jsstring :=
  if deepThink then lit "gemini-2.5-flash" else lit "gemini-3-pro-preview".

Definition BASE_INSTRUCTION : jsstring :=
  template
    [ "You are 'Roblox Architect', a world-class Roblox Studio expert AI. "
    ; "Your goal is to assist developers in creating high-quality games on the Roblox platform."
    ; ""
    ; "Attributes:"
    ; "1.  **Professional & Modern:** You write clean, optimized, and strictly typed Luau code. Use 'task.wait', 'OverlapParams', 'TweenService', etc."
    ; "2.  **UI/UX Expert:** Suggest UDim2, AnchorPoints, and clean hierarchy. **Always include specific UDim2 values (e.g., `UDim2.new(0.5, 0, 0.5, 0)`) and AnchorPoint examples (e.g., `Vector2.new(0.5, 0.5)`) when suggesting UI layouts.**"
    ; "3.  **Secure:** Prioritize filtering text and securing RemoteEvents."
    ; "4.  **Formatting:** Always wrap code in ```lua blocks."
    ]%string.

Definition ANALYZE_INSTRUCTION : jsstring :=
  template
    [ "[ACTIVE MODE: CODE ANALYSIS]"
    ; "The user wants a strict review."
    ; "- **Identify Missing Types:** Point out variables/functions lacking types."
    ; "- **Modularity:** Suggest splitting monoliths into ModuleScripts."
    ; "- **Safety:** Flag insecure RemoteEvent usage."
    ; "- **Style:** Enforce Roblox Lua Style Guide."
    ]%string.

Definition OPTIMIZE_INSTRUCTION : jsstring :=
  template
    [ "[ACTIVE MODE: OPTIMIZATION]"
    ; "The user requires HIGH PERFORMANCE code."
    ; "- **Critical:** Avoid O(n^2) loops. Use dictionary lookups."
    ; "- **Memory:** properly disconnect RBXScriptConnections (Janitor/Maid)."
    ; "- **Network:** Minimize RemoteEvent payloads."
    ; "- **Threading:** Use Parallel Luau (Actors) for heavy tasks."
    ; "- **Explanation:** You MUST explain specific optimization choices made."
    ]%string.

(** The mutable pair ([systemInstruction], [activeModes]) of
    [sendMessageToGemini], threaded through its two [if] statements. *)
Definition stackModes (analyzeMode optimizeMode : bool)
  : jsstring * list jsstring :=
  let systemInstruction := BASE_INSTRUCTION in
  let activeModes : list jsstring := [] in
  let '(systemInstruction, activeModes) :=
    if analyzeMode
    then (systemInstruction ++ (nl ++ nl) ++ ANALYZE_INSTRUCTION,
          activeModes ++ [lit "Analysis"])
    else (systemInstruction, activeModes) in
  let '(systemInstruction, activeModes) :=
    if optimizeMode
    then (systemInstruction ++ (nl ++ nl) ++ OPTIMIZE_INSTRUCTION,
          activeModes ++ [lit "Optimization"])
    else (systemInstruction, activeModes) in
  (systemInstruction, activeModes).

(** The directive appended when [activeModes] is not empty. *)
Definition modesDirective (activeModes : list jsstring) : jsstring :=
  (nl ++ nl) ++ lit "User has enabled the following modes: "
    ++ join (lit ", ") activeModes
    ++ lit ". Please adhere to ALL instructions above.".

(** The value of [systemInstruction] stored in [config]. *)
Definition systemInstructionOf (analyzeMode optimizeMode : bool) : jsstring :=
  let '(systemInstruction, activeModes) := stackModes analyzeMode optimizeMode in
  if 0 <? length activeModes
  then systemInstruction ++ modesDirective activeModes
  else systemInstruction.

Record ThinkingConfig := mkThinkingConfig { thinkingBudget : Z }.

(** [config]: the key [thinkingConfig] is set only under [deepThink]. *)
Record Config := mkConfig {
  systemInstruction : jsstring;
  thinkingConfig : option ThinkingConfig
}.

Inductive Part :=
| TextPart (text : jsstring)
| InlineData (mimeType data : jsstring).

Record Content := mkContent { c_role : Role; c_parts : list Part }.

Record GenerateRequest := mkRequest {
  req_model : jsstring;
  req_contents : list Content;
  req_config : Config
}.

Definition inlinePart (att : Attachment) : Part :=
  InlineData (att_mimeType att) (att_data att).

(** [msg.attachments || []] *)
Definition attachmentsOrEmpty (o : option (list Attachment)) : list Attachment :=
  default [] o.

Definition toContent (msg : Message) : Content :=
  {| c_role := msg_role msg;
     c_parts := TextPart (msg_content msg)
                  :: (inlinePart <$> attachmentsOrEmpty (msg_attachments msg)) |}.

(** The arguments of one call of [sendMessageToGemini]. *)
Record Args := mkArgs {
  a_history : list Message;
  a_newMessage : jsstring;
  a_attachments : list Attachment;
  a_deepThink : bool;
  a_analyzeMode : bool;
  a_optimizeMode : bool
}.

(** Everything [sendMessageToGemini] does between reading the key and
    [ai.models.generateContent]: the request handed to the SDK. *)
Definition buildRequest (a : Args) : GenerateRequest :=
  let modelName := getModelName (a_deepThink a) in
  let config :=
    {| systemInstruction := systemInstructionOf (a_analyzeMode a) (a_optimizeMode a);
       thinkingConfig :=
         if a_deepThink a then Some {| thinkingBudget := 8192 |} else None |} in
  let validHistory := toContent <$> a_history a in
  let currentParts :=
    [TextPart (a_newMessage a)] ++ (inlinePart <$> a_attachments a) in
  let contents := validHistory ++ [ {| c_role := user; c_parts := currentParts |} ] in
  {| req_model := modelName; req_contents := contents; req_config := config |}.

(** The synchronous prefix of [sendMessageToGemini]: it throws without
    calling the model when [process.env.API_KEY] is missing or empty. *)
Definition prepare (apiKey : option jsstring) (a : Args) : Exn + GenerateRequest :=
  if negb (truthy_opt apiKey)
  then inl (Error (lit "API_KEY not found in environment variables"))
  else inr (buildRequest a).

(** What the remote call settles with. *)
Inductive Remote :=
| Responded (text : option jsstring)
| Rejected (e : Exn).

(** The value the promise of [sendMessageToGemini] settles with; the
    [catch] of the function logs and rethrows. *)
Definition settle (call : Exn + GenerateRequest) (r : Remote) : Exn + jsstring :=
  match call with
  | inl e => inl e
  | inr _ =>
      match r with
      | Responded text => inr (or_else text (lit "No response generated."))
      | Rejected e => inl e
      end
  end.

(** [sendMessageToGemini] as a whole: the promise it returns settles
    with the text of the response or with the error thrown on the way. *)
Definition sendMessageToGemini (apiKey : option jsstring) (a : Args)
    (r : Remote) : Exn + jsstring :=
  settle (prepare apiKey a) r.

(** The directive for a given list of mode names, as one text. *)
Definition directive (names : string) : jsstring :=
  nl ++ nl ++ lit "User has enabled the following modes: " ++ lit names
     ++ lit ". Please adhere to ALL instructions above.".

End Gemini.

(** ** services/storage: the session store kept in [localStorage] *)

Module Storage.

(** The text held under [LOCAL_STORAGE_KEY]: what [JSON.stringify]
    made of a [ChatSession[]], which is all this code ever writes there,
    or text that [JSON.parse] rejects. Text that parses to a value that
    is no array (only another program could have put it there) is not
    part of the model: on it the array methods of [dbService] throw
    outside the two [try] blocks. *)
Inductive Item :=
| SessionsJson (sessions : list ChatSession)
| Malformed.

(** [localStorage], reduced to the one key this module uses;
    [ls_writable] tells whether [setItem] succeeds (it throws when the
    quota is exceeded or storage is disabled). *)
Record LocalStorage := mkLocalStorage {
  ls_item : option Item;
  ls_writable : bool
}.

(** Computations that read and write [localStorage] and may throw. *)
Definition M (A : Type) : Type := LocalStorage -> (Exn + A) * LocalStorage.

Definition ret {A} (a : A) : M A := fun ls => (inr a, ls).

Definition throw {A} (e : Exn) : M A := fun ls => (inl e, ls).

Definition bind {A B} (c : M A) (k : A -> M B) : M B :=
  fun ls =>
    match c ls with
    | (inr a, ls') => k a ls'
    | (inl e, ls') => (inl e, ls')
    end.

(** [try { c } catch (e) { h e }] *)
Definition try_catch {A} (c : M A) (h : Exn -> M A) : M A :=
  fun ls =>
    match c ls with
    | (inr a, ls') => (inr a, ls')
    | (inl e, ls') => h e ls'
    end.

Declare Scope storage_scope.
Delimit Scope storage_scope with storage.
Notation "'let*' x := c 'in' k" := (bind c (fun x => k))
  (at level 10, x name, c at level 100, k at level 200) : storage_scope.
Local Open Scope storage_scope.

Definition getItem : M (option Item) := fun ls => (inr (ls_item ls), ls).

Definition setItem (v : Item) : M unit :=
  fun ls =>
    if ls_writable ls
    then (inr tt, {| ls_item := Some v; ls_writable := ls_writable ls |})
    else (inl QuotaExceededError, ls).

Definition JSON_parse (data : Item) : M (list ChatSession) :=
  match data with
  | SessionsJson sessions => ret sessions
  | Malformed => throw SyntaxError
  end.

Definition JSON_stringify (sessions : list ChatSession) : Item :=
  SessionsJson sessions.

Definition getLocalSessions : M (list ChatSession) :=
  try_catch
    (let* data := getItem in
     match data with
     | Some d => JSON_parse d
     | None => ret []
     end)
    (fun _ => ret []).

Definition saveLocalSessions (sessions : list ChatSession) : M unit :=
  try_catch (setItem (JSON_stringify sessions)) (fun _ => ret tt).

(** [arr.findIndex(p)]: [None] stands for [-1]. *)
Definition findIndex {A} (P : A -> Prop) `{!forall x, Decision (P x)}
    (l : list A) : option nat :=
  fst <$> list_find P l.

(** The title expression of [createSession] (the same expression is
    in the [POST /api/sessions] route of server.js):
    [content.slice(0, 30) + (content.length > 30 ? '...' : '')], then
    [title || 'New Chat']. *)
Definition sessionTitle (content : jsstring) : jsstring :=
  let title :=
    slice0 30 content ++ (if 30 <? length content then lit "..." else []) in
  if truthy title then title else lit "New Chat".

(** [generateId()] and [Date.now()] of the source are the arguments
    [newId] and [now]. *)
Definition createSession (userId : jsstring) (firstMessage : Message)
    (newId : jsstring) (now : Z) : M ChatSession :=
  let* sessions := getLocalSessions in
  let newSession :=
    {| cs_id := newId;
       cs_userId := userId;
       cs_title := sessionTitle (msg_content firstMessage);
       cs_messages := [firstMessage];
       cs_lastUpdated := now |} in
  let sessions := sessions ++ [newSession] in
  let* _ := saveLocalSessions sessions in
  ret newSession.

(** [sessions[index].messages = ...; sessions[index].lastUpdated = ...] *)
Definition overwrite (newMessages : list Message) (now : Z)
    (s : ChatSession) : ChatSession :=
  {| cs_id := cs_id s; cs_userId := cs_userId s; cs_title := cs_title s;
     cs_messages := newMessages; cs_lastUpdated := now |}.

Definition updateSession (sessionId : jsstring) (newMessages : list Message)
    (now : Z) : M unit :=
  let* sessions := getLocalSessions in
  match findIndex (fun s => cs_id s = sessionId) sessions with
  | Some index =>
      saveLocalSessions (alter (overwrite newMessages now) index sessions)
  | None => ret tt
  end.

(** The collection a reader of the store sees. *)
Definition stored (ls : LocalStorage) : list ChatSession :=
  match fst (getLocalSessions ls) with
  | inr sessions => sessions
  | inl _ => []
  end.

Definition deleteSession (sessionId : jsstring) : M unit :=
  let* sessions := getLocalSessions in
  let sessions := filter (fun s => cs_id s <> sessionId) sessions in
  saveLocalSessions sessions.

(** [(a, b) => b.lastUpdated - a.lastUpdated] *)
Definition newestFirst (a b : ChatSession) : Z :=
  (cs_lastUpdated b - cs_lastUpdated a)%Z.

(** The sort works on the array that [getLocalSessions] has just parsed;
    [userId] is not used. *)
Definition getSessions (userId : jsstring) : M (list ChatSession) :=
  let* sessions := getLocalSessions in
  ret (sort newestFirst sessions).


(** The first stored session with the id [sid]. *)
Definition storedSession (sid : jsstring) (ls : LocalStorage) : option ChatSession :=
  snd <$> list_find (fun s => cs_id s = sid) (stored ls).

(** [a] was updated no earlier than [b]. *)
Definition newerOrEqual (a b : ChatSession) : Prop :=
  (cs_lastUpdated b <= cs_lastUpdated a)%Z.

End Storage.

(** ** App.tsx: the conversation engine *)

Module App.

Import Storage.

(** The [useState] cells the handlers below read or write. The cells
    [sessions], [sidebarOpen] and [showSettings] only feed the side bar
    and the settings panel and are left out. *)
Record State := mkState {
  currentUser : option User;
  currentSessionId : option jsstring;
  messages : list Message;
  input : jsstring;
  isLoading : bool;
  deepThink : bool;
  analyzeMode : bool;
  optimizeMode : bool;
  attachments : list Attachment;
  editingMessageId : option jsstring;
  editContent : jsstring
}.

Definition setCurrentSessionId (v : option jsstring) (st : State) : State :=
  {| currentUser := currentUser st; currentSessionId := v;
     messages := messages st; input := input st; isLoading := isLoading st;
     deepThink := deepThink st; analyzeMode := analyzeMode st;
     optimizeMode := optimizeMode st; attachments := attachments st;
     editingMessageId := editingMessageId st; editContent := editContent st |}.

Definition setMessages (v : list Message) (st : State) : State :=
  {| currentUser := currentUser st; currentSessionId := currentSessionId st;
     messages := v; input := input st; isLoading := isLoading st;
     deepThink := deepThink st; analyzeMode := analyzeMode st;
     optimizeMode := optimizeMode st; attachments := attachments st;
     editingMessageId := editingMessageId st; editContent := editContent st |}.

Definition setInput (v : jsstring) (st : State) : State :=
  {| currentUser := currentUser st; currentSessionId := currentSessionId st;
     messages := messages st; input := v; isLoading := isLoading st;
     deepThink := deepThink st; analyzeMode := analyzeMode st;
     optimizeMode := optimizeMode st; attachments := attachments st;
     editingMessageId := editingMessageId st; editContent := editContent st |}.

Definition setIsLoading (v : bool) (st : State) : State :=
  {| currentUser := currentUser st; currentSessionId := currentSessionId st;
     messages := messages st; input := input st; isLoading := v;
     deepThink := deepThink st; analyzeMode := analyzeMode st;
     optimizeMode := optimizeMode st; attachments := attachments st;
     editingMessageId := editingMessageId st; editContent := editContent st |}.

Definition setAttachments (v : list Attachment) (st : State) : State :=
  {| currentUser := currentUser st; currentSessionId := currentSessionId st;
     messages := messages st; input := input st; isLoading := isLoading st;
     deepThink := deepThink st; analyzeMode := analyzeMode st;
     optimizeMode := optimizeMode st; attachments := v;
     editingMessageId := editingMessageId st; editContent := editContent st |}.

Definition setEditingMessageId (v : option jsstring) (st : State) : State :=
  {| currentUser := currentUser st; currentSessionId := currentSessionId st;
     messages := messages st; input := input st; isLoading := isLoading st;
     deepThink := deepThink st; analyzeMode := analyzeMode st;
     optimizeMode := optimizeMode st; attachments := attachments st;
     editingMessageId := v; editContent := editContent st |}.

Definition setEditContent (v : jsstring) (st : State) : State :=
  {| currentUser := currentUser st; currentSessionId := currentSessionId st;
     messages := messages st; input := input st; isLoading := isLoading st;
     deepThink := deepThink st; analyzeMode := analyzeMode st;
     optimizeMode := optimizeMode st; attachments := attachments st;
     editingMessageId := editingMessageId st; editContent := v |}.

(** The handler whose [await sendMessageToGemini(...)] is outstanding. *)
Inductive Origin := FromSend | FromEdit.

(** A completion call in flight: the suspended handler, the arguments
    it passed, and what the synchronous prefix of the call produced. *)
Record Pending := mkPending {
  p_origin : Origin;
  p_args : Gemini.Args;
  p_call : Exn + Gemini.GenerateRequest
}.

(** The engine: React state, [localStorage], [process.env.API_KEY] and
    the completion calls that have not settled yet. *)
Record Engine := mkEngine {
  app : State;
  storage : LocalStorage;
  apiKey : option jsstring;
  pending : list Pending
}.

(** [useEffect(..., [messages, currentSessionId, currentUser])]: run
    after a commit that changed [messages] or [currentSessionId]. The
    promise of [updateSession] is dropped. *)
Definition persistEffect (now : Z) (e : Engine) : Engine :=
  let st := app e in
  match currentUser st, currentSessionId st with
  | Some _, Some sid =>
      if truthy sid && (0 <? length (messages st))
      then {| app := st;
              storage := snd (updateSession sid (messages st) now (storage e));
              apiKey := apiKey e;
              pending := pending e |}
      else e
  | _, _ => e
  end.

Definition startNewChat (now : Z) (e : Engine) : Engine :=
  persistEffect now
    {| app := setCurrentSessionId None (setMessages [] (app e));
       storage := storage e; apiKey := apiKey e; pending := pending e |}.

(** *** Editing *)

Definition handleEditClick (msg : Message) (st : State) : State :=
  setEditContent (msg_content msg) (setEditingMessageId (Some (msg_id msg)) st).

Definition handleEditCancel (st : State) : State :=
  setEditContent [] (setEditingMessageId None st).

(** The pencil button of the [k]-th rendered message. It is rendered in
    normal display mode only ([editingMessageId !== msg.id]) and under
    [msg.role === 'user' && !isLoading]; a click on a button that is not
    there does nothing. *)
Definition editButton (k : nat) (e : Engine) : Engine :=
  let st := app e in
  match messages st !! k with
  | Some msg =>
      if bool_decide (editingMessageId st ≠ Some (msg_id msg))
         && bool_decide (msg_role msg = user) && negb (isLoading st)
      then {| app := handleEditClick msg st; storage := storage e;
              apiKey := apiKey e; pending := pending e |}
      else e
  | None => e
  end.

(** [messages.filter(m => m.id !== 'welcome')] *)
Definition withoutWelcome (l : list Message) : list Message :=
  filter (fun m => msg_id m ≠ lit "welcome") l.

(** [handleEditSave] up to its [await]. *)
Definition handleEditSave (now : Z) (e : Engine) : Engine :=
  let st := app e in
  if negb (truthy_opt (editingMessageId st)) || negb (truthy (trim (editContent st)))
  then e
  else
    match list_find (fun m => Some (msg_id m) = editingMessageId st) (messages st) with
    | None => e
    | Some (msgIndex, originalMsg) =>
        let updatedMsg := with_content originalMsg (editContent st) in
        let newHistory := <[msgIndex := updatedMsg]> (take (msgIndex + 1) (messages st)) in
        let st' := setIsLoading true (setEditingMessageId None (setMessages newHistory st)) in
        let apiHistory := withoutWelcome (take (length newHistory - 1) newHistory) in
        let args :=
          {| Gemini.a_history := apiHistory;
             Gemini.a_newMessage := msg_content updatedMsg;
             Gemini.a_attachments := Gemini.attachmentsOrEmpty (msg_attachments updatedMsg);
             Gemini.a_deepThink := deepThink st;
             Gemini.a_analyzeMode := analyzeMode st;
             Gemini.a_optimizeMode := optimizeMode st |} in
        persistEffect now
          {| app := st'; storage := storage e; apiKey := apiKey e;
             pending := pending e ++
               [ {| p_origin := FromEdit; p_args := args;
                    p_call := Gemini.prepare (apiKey e) args |} ] |}
    end.

(** *** Sending *)

(** [handleSend] up to its [await sendMessageToGemini(...)]. [msgId] and
    [sessId] are the results of the two [generateId()] calls (the second
    one inside [createSession]). *)
Definition handleSend (manualInput : option jsstring) (msgId sessId : jsstring)
    (now : Z) (e : Engine) : Engine :=
  let st := app e in
  let textToSend := match manualInput with Some s => s | None => input st end in
  if (negb (truthy (trim textToSend)) && (length (attachments st) =? 0))
     || isLoading st
  then e
  else
    let userMessage :=
      {| msg_id := msgId; msg_role := user; msg_content := textToSend;
         msg_attachments := Some (attachments st); msg_isThinking := None;
         msg_timestamp := now |} in
    let st1 := setMessages (messages st ++ [userMessage]) st in
    let st2 := if negb (truthy_opt manualInput) then setInput [] st1 else st1 in
    let st3 := setIsLoading true (setAttachments [] st2) in
    (* Ensure session exists *)
    let activeSessionId := currentSessionId st in
    let '(st4, ls) :=
      match currentUser st with
      | Some u =>
          if negb (truthy_opt activeSessionId)
          then
            let tempMsg :=
              {| msg_id := lit "temp"; msg_role := user; msg_content := textToSend;
                 msg_attachments := None; msg_isThinking := None;
                 msg_timestamp := now |} in
            match createSession (user_id u) tempMsg sessId now (storage e) with
            | (inr newSession, ls') =>
                (setCurrentSessionId (Some (cs_id newSession)) st3, ls')
            | (inl _, ls') => (st3, ls')
            end
          else (st3, storage e)
      | None => (st3, storage e)
      end in
    let history := withoutWelcome (messages st) in
    let args :=
      {| Gemini.a_history := history;
         Gemini.a_newMessage := msg_content userMessage;
         Gemini.a_attachments := Gemini.attachmentsOrEmpty (msg_attachments userMessage);
         Gemini.a_deepThink := deepThink st;
         Gemini.a_analyzeMode := analyzeMode st;
         Gemini.a_optimizeMode := optimizeMode st |} in
    persistEffect now
      {| app := st4; storage := ls; apiKey := apiKey e;
         pending := pending e ++
           [ {| p_origin := FromSend; p_args := args;
                p_call := Gemini.prepare (apiKey e) args |} ] |}.

(** *** Settling of a completion call *)

(** The [content] of the [catch] branch of each handler. *)
Definition errorContent (o : Origin) : jsstring :=
  match o with
  | FromSend => lit "I encountered a system error. Please check your API key."
  | FromEdit => lit "Error regenerating response after edit."
  end.

(** The rest of the handler suspended in the [k]-th pending call, once
    the call settles with [r]: the [try] branch appends [botMessage], the
    [catch] branch [errorMessage], and [finally] clears [isLoading]. *)
Definition resolve (k : nat) (r : Gemini.Remote) (botId : jsstring) (now : Z)
    (e : Engine) : Engine :=
  match pending e !! k with
  | None => e
  | Some p =>
      let st := app e in
      let st' :=
        match Gemini.settle (p_call p) r with
        | inr responseText =>
            let botMessage :=
              {| msg_id := botId; msg_role := model; msg_content := responseText;
                 msg_attachments := None; msg_isThinking := None;
                 msg_timestamp := now |} in
            setMessages (messages st ++ [botMessage]) st
        | inl error =>
            let errorMessage :=
              {| msg_id := botId; msg_role := model;
                 msg_content := errorContent (p_origin p);
                 msg_attachments := None; msg_isThinking := None;
                 msg_timestamp := now |} in
            setMessages (messages st ++ [errorMessage]) st
        end in
      persistEffect now
        {| app := setIsLoading false st'; storage := storage e;
           apiKey := apiKey e; pending := delete k (pending e) |}
  end.

(** *** Events *)

Inductive Event :=
| NewChat (now : Z)
| ClickEdit (k : nat)
| TypeEdit (text : jsstring)
| CancelEdit
| SaveEdit (now : Z)
| TypeInput (text : jsstring)
| Send (manualInput : option jsstring) (msgId sessId : jsstring) (now : Z)
| Settle (k : nat) (r : Gemini.Remote) (botId : jsstring) (now : Z).

Definition onApp (f : State -> State) (e : Engine) : Engine :=
  {| app := f (app e); storage := storage e; apiKey := apiKey e;
     pending := pending e |}.

Definition step (e : Engine) (ev : Event) : Engine :=
  match ev with
  | NewChat now => startNewChat now e
  | ClickEdit k => editButton k e
  | TypeEdit text => onApp (setEditContent text) e
  | CancelEdit => onApp handleEditCancel e
  | SaveEdit now => handleEditSave now e
  | TypeInput text => onApp (setInput text) e
  | Send manualInput msgId sessId now => handleSend manualInput msgId sessId now e
  | Settle k r botId now => resolve k r botId now e
  end.

Definition run (e : Engine) (evs : list Event) : Engine := foldl step e evs.

(** The engine of a freshly mounted application, after [initApp]. *)
Definition guest : User :=
  {| user_id := lit "guest_dev"; user_username := lit "Developer";
     user_avatar := Some (lit "https://api.dicebear.com/7.x/shapes/svg?seed=RobloxDev") |}.

Definition initial (ls : LocalStorage) (key : option jsstring) : Engine :=
  {| app := {| currentUser := Some guest; currentSessionId := None;
               messages := []; input := []; isLoading := false;
               deepThink := false; analyzeMode := false; optimizeMode := false;
               attachments := []; editingMessageId := None; editContent := [] |};
     storage := ls; apiKey := key; pending := [] |}.

(** *** Vocabulary of the properties *)

(** No active session: [currentSessionId] is [null] (or the empty id,
    which the guards of the source treat alike). *)
Definition noSession (e : Engine) : Prop :=
  truthy_opt (currentSessionId (app e)) = false.

Definition textToSend (manualInput : option jsstring) (e : Engine) : jsstring :=
  match manualInput with Some s => s | None => input (app e) end.

(** The guard on the first line of [handleSend]. *)
Definition sendRejected (manualInput : option jsstring) (e : Engine) : bool :=
  (negb (truthy (trim (textToSend manualInput e)))
     && (length (attachments (app e)) =? 0))
  || isLoading (app e).

(** The message an accepted [handleSend] appends. *)
Definition userMessageOf (manualInput : option jsstring) (msgId : jsstring)
    (now : Z) (e : Engine) : Message :=
  {| msg_id := msgId; msg_role := user;
     msg_content := textToSend manualInput e;
     msg_attachments := Some (attachments (app e)); msg_isThinking := None;
     msg_timestamp := now |}.

(** The message the continuation of a handler appends. *)
Definition replyMessage (botId : jsstring) (text : jsstring) (now : Z) : Message :=
  {| msg_id := botId; msg_role := model; msg_content := text;
     msg_attachments := None; msg_isThinking := None; msg_timestamp := now |}.



(** *** The other handlers *)

Definition setDeepThink (v : bool) (st : State) : State :=
  {| currentUser := currentUser st; currentSessionId := currentSessionId st;
     messages := messages st; input := input st; isLoading := isLoading st;
     deepThink := v; analyzeMode := analyzeMode st;
     optimizeMode := optimizeMode st; attachments := attachments st;
     editingMessageId := editingMessageId st; editContent := editContent st |}.

Definition setAnalyzeMode (v : bool) (st : State) : State :=
  {| currentUser := currentUser st; currentSessionId := currentSessionId st;
     messages := messages st; input := input st; isLoading := isLoading st;
     deepThink := deepThink st; analyzeMode := v;
     optimizeMode := optimizeMode st; attachments := attachments st;
     editingMessageId := editingMessageId st; editContent := editContent st |}.

Definition setOptimizeMode (v : bool) (st : State) : State :=
  {| currentUser := currentUser st; currentSessionId := currentSessionId st;
     messages := messages st; input := input st; isLoading := isLoading st;
     deepThink := deepThink st; analyzeMode := analyzeMode st;
     optimizeMode := v; attachments := attachments st;
     editingMessageId := editingMessageId st; editContent := editContent st |}.

(** Whether a click on [session] leaves both [messages] and
    [currentSessionId] as they are. [shown] tells whether
    [session.messages] is the very array that [messages] holds
    ([Object.is]; it then has the same contents), as when the row of the
    conversation on screen is clicked again. *)
Definition sameConversation (session : ChatSession) (shown : bool)
    (e : Engine) : bool :=
  shown && bool_decide (cs_messages session = messages (app e))
  && bool_decide (currentSessionId (app e) = Some (cs_id session)).

(** [loadSession]. When neither state cell changes no effect runs;
    otherwise the commit changes [messages] or [currentSessionId], and
    the persistence effect runs after it. *)
Definition loadSession (session : ChatSession) (shown : bool) (now : Z)
    (e : Engine) : Engine :=
  let e' :=
    {| app := setMessages (cs_messages session)
                (setCurrentSessionId (Some (cs_id session)) (app e));
       storage := storage e; apiKey := apiKey e; pending := pending e |} in
  if sameConversation session shown e then e' else persistEffect now e'.

(** [deleteSession] of App.tsx; [confirmed] is the answer to
    [window.confirm]. The refreshed side bar list is not kept. *)
Definition deleteSession (confirmed : bool) (sessionId : jsstring) (now : Z)
    (e : Engine) : Engine :=
  if confirmed
  then
    match Storage.deleteSession sessionId (storage e) with
    | (inr _, ls') =>
        let e' := {| app := app e; storage := ls'; apiKey := apiKey e;
                     pending := pending e |} in
        if bool_decide (currentSessionId (app e) = Some sessionId)
        then startNewChat now e'
        else e'
    | (inl _, ls') =>
        {| app := app e; storage := ls'; apiKey := apiKey e; pending := pending e |}
    end
  else e.

(** [prev.filter((_, i) => i !== index)] *)
Definition removeAttachment (index : nat) (st : State) : State :=
  setAttachments
    (filteri (fun _ i => negb (i =? index)) (attachments st)) st.

(** One entry of [event.target.files], with what the [await] on
    [fileToAttachment(file)] gives: the attachment, or a rejection. *)
Record Upload := mkUpload {
  up_name : jsstring;
  up_size : Z;
  up_read : option Attachment
}.

Definition MAX_UPLOAD : Z := 5 * 1024 * 1024.

(** The [for] loop of [handleFileUpload]: the attachments pushed to
    [newAttachments], and the texts passed to [alert]. *)
Fixpoint readFiles (files : list Upload) (newAttachments : list Attachment)
    (alerts : list jsstring) : list Attachment * list jsstring :=
  match files with
  | [] => (newAttachments, alerts)
  | file :: rest =>
      if (MAX_UPLOAD <? up_size file)%Z
      then readFiles rest newAttachments
             (alerts ++ [lit "File " ++ up_name file ++ lit " is too large. Max 5MB."])
      else
        match up_read file with
        | Some att => readFiles rest (newAttachments ++ [att]) alerts
        | None => readFiles rest newAttachments alerts
        end
  end.

(** [handleFileUpload]: [files] is [None] when [event.target.files] is
    null. The state update is [setAttachments(prev => [...prev,
    ...newAttachments])]. *)
Definition handleFileUpload (files : option (list Upload)) (st : State)
    : State * list jsstring :=
  match files with
  | Some (file :: rest) =>
      let '(newAttachments, alerts) := readFiles (file :: rest) [] [] in
      (setAttachments (attachments st ++ newAttachments) st, alerts)
  | _ => (st, [])
  end.

(** The texts of [handleCodeAction]. *)
Definition codeFence (code : jsstring) : jsstring :=
  lit "```lua" ++ nl ++ code ++ nl ++ lit "```".

(** [handleCodeAction]. [handleSend] is the function of the same render
    as [handleCodeAction]: it reads the [optimizeMode] of that render, and
    the [setOptimizeMode(true)] queued before the call shows in the next
    one. *)
Definition handleCodeAction (action code : jsstring) (msgId sessId : jsstring)
    (now : Z) (e : Engine) : Engine :=
  if bool_decide (action = lit "explain")
  then handleSend (Some (lit "Explain this code in detail:" ++ nl ++ nl ++ codeFence code))
         msgId sessId now e
  else if bool_decide (action = lit "refactor")
  then
    let e' := handleSend (Some (lit "Refactor this code:" ++ nl ++ nl ++ codeFence code))
                msgId sessId now e in
    if negb (optimizeMode (app e))
    then onApp (setOptimizeMode true) e'
    else e'
  else e.

(** Everything the user or the network can do to the engine. *)
Inductive Action :=
| Core (ev : Event)
| LoadSession (session : ChatSession) (shown : bool) (now : Z)
| DeleteSession (confirmed : bool) (sessionId : jsstring) (now : Z)
| RemoveAttachment (index : nat)
| FilesChosen (files : option (list Upload))
| CodeAction (action code : jsstring) (msgId sessId : jsstring) (now : Z)
| ToggleAnalyze
| ToggleOptimize
| ToggleDeepThink.

Definition act (e : Engine) (a : Action) : Engine :=
  match a with
  | Core ev => step e ev
  | LoadSession session shown now => loadSession session shown now e
  | DeleteSession confirmed sessionId now => deleteSession confirmed sessionId now e
  | RemoveAttachment index => onApp (removeAttachment index) e
  | FilesChosen files => onApp (fun st => fst (handleFileUpload files st)) e
  | CodeAction action code msgId sessId now =>
      handleCodeAction action code msgId sessId now e
  | ToggleAnalyze => onApp (fun st => setAnalyzeMode (negb (analyzeMode st)) st) e
  | ToggleOptimize => onApp (fun st => setOptimizeMode (negb (optimizeMode st)) st) e
  | ToggleDeepThink => onApp (fun st => setDeepThink (negb (deepThink st)) st) e
  end.

Definition perform (e : Engine) (actions : list Action) : Engine :=
  foldl act e actions.

(** The one action that can put a second call in flight: saving an edit
    while a call is pending. *)
Definition saveWhileLoading (e : Engine) (a : Action) : bool :=
  match a with
  | Core (SaveEdit _) => isLoading (app e)
  | _ => false
  end.

Fixpoint neverSavesWhileLoading (e : Engine) (actions : list Action) : Prop :=
  match actions with
  | [] => True
  | a :: rest => saveWhileLoading e a = false /\ neverSavesWhileLoading (act e a) rest
  end.

(** [isLoading] tells whether a call is pending, and there is at most one. *)
Definition singleFlight (e : Engine) : Prop :=
  (isLoading (app e) = true /\ length (pending e) = 1)
  \/ (isLoading (app e) = false /\ pending e = []).

(** What the loop of [handleFileUpload] keeps of one file. *)
Definition acceptedUpload (file : Upload) : option Attachment :=
  if (MAX_UPLOAD <? up_size file)%Z then None else up_read file.

(** [after] is [before] cut somewhere, with at most one message put
    behind the cut. *)
Definition appendOrTruncate (before after : list Message) : Prop :=
  exists n, n <= length before /\
            (after = take n before \/ exists m, after = take n before ++ [m]).


(** *** Ids and roles *)

(** Every message of [l] has the role that [roleOf] gives to its id:
    with ids that are unique, a user message and a model message never
    share one. *)
Definition rolesById (roleOf : jsstring -> Role) (l : list Message) : Prop :=
  Forall (fun m => msg_role m = roleOf (msg_id m)) l.

(** The messages on screen have the roles of their ids, and the edit
    box, when open, is open on the id of a user message. *)
Definition editsUserMessages (roleOf : jsstring -> Role) (e : Engine) : Prop :=
  rolesById roleOf (messages (app e)) /\
  forall mid, editingMessageId (app e) = Some mid -> roleOf mid = user.

(** The ids that an action brings in have the roles [roleOf] gives them:
    a generated id that becomes the id of a user message is a user id,
    one that becomes the id of a model message is a model id, and the
    messages of a loaded session have the roles of their ids. *)
Definition respectsRoles (roleOf : jsstring -> Role) (a : Action) : Prop :=
  match a with
  | Core (Send _ msgId _ _) => roleOf msgId = user
  | Core (Settle _ _ botId _) => roleOf botId = model
  | CodeAction _ _ msgId _ _ => roleOf msgId = user
  | LoadSession session _ _ => rolesById roleOf (cs_messages session)
  | _ => True
  end.

End App.

(** ** Scenarios *)

Module Scenarios.

Import Storage App.

Definition emptyStorage : LocalStorage := {| ls_item := None; ls_writable := true |}.

Definition someKey : option jsstring := Some (lit "AIza-test-key").

(** A user message as [handleSend] builds it, without attachments. *)
Definition userMsg (id content : string) (t : Z) : Message :=
  {| msg_id := lit id; msg_role := user; msg_content := lit content;
     msg_attachments := Some []; msg_isThinking := None; msg_timestamp := t |}.

Definition modelMsg (id content : string) (t : Z) : Message :=
  replyMessage (lit id) (lit content) t.

(** An idle engine that shows [msgs], with an edit box open or not. *)
Definition showing (msgs : list Message) (editing : option jsstring)
    (editText : jsstring) : Engine :=
  {| app := {| currentUser := Some guest; currentSessionId := None;
               messages := msgs; input := []; isLoading := false;
               deepThink := false; analyzeMode := false; optimizeMode := false;
               attachments := []; editingMessageId := editing;
               editContent := editText |};
     storage := emptyStorage; apiKey := someKey; pending := [] |}.

Definition twoRounds : list Message :=
  [ userMsg "u1" "make a door" 1; modelMsg "m1" "here is a door" 2;
    userMsg "u2" "make it red" 3; modelMsg "m2" "here is a red door" 4 ].

(** The edit box is open on the second question. *)
Definition editingSecondQuestion : Engine :=
  showing twoRounds (Some (lit "u2")) (lit "make it blue").

(** The edited id is the id of a model message. *)
Definition editingReply : Engine :=
  showing [userMsg "u1" "make a door" 1; modelMsg "m1" "here is a door" 2]
          (Some (lit "m1")) (lit "here is a window").

(** One question asked and answered, the edit box opened on the question
    and its text changed, a second question sent, and the edit saved
    before the second answer has arrived. *)
Definition saveDuringSend : list Event :=
  [ Send (Some (lit "make a door")) (lit "u1") (lit "s1") 1;
    Settle 0 (Gemini.Responded (Some (lit "here is a door"))) (lit "m1") 2;
    ClickEdit 0;
    TypeEdit (lit "make a gate");
    Send (Some (lit "make it red")) (lit "u2") (lit "s2") 3;
    SaveEdit 4 ].



(** A small picture as the file input hands it over. *)
Definition doorPicture : Utils.File :=
  {| Utils.file_name := lit "door.png"; Utils.file_type := lit "image/png";
     Utils.file_size := 1234;
     Utils.file_dataURL := Some (Utils.dataURL (lit "image/png") (lit "iVBORw0KGgo=")) |}.

(** A file without content, for which the reader gives the bare scheme. *)
Definition emptyNote : Utils.File :=
  {| Utils.file_name := lit "empty.txt"; Utils.file_type := lit "text/plain";
     Utils.file_size := 0; Utils.file_dataURL := Some (lit "data:") |}.

Definition doorSession : ChatSession :=
  {| cs_id := lit "a"; cs_userId := lit "guest_dev"; cs_title := lit "make a door";
     cs_messages := [userMsg "u1" "make a door" 1; modelMsg "m1" "here is a door" 2];
     cs_lastUpdated := 2 |}.

Definition gateSession : ChatSession :=
  {| cs_id := lit "b"; cs_userId := lit "guest_dev"; cs_title := lit "make a gate";
     cs_messages := [userMsg "u5" "make a gate" 11];
     cs_lastUpdated := 11 |}.

Definition twoSessions : LocalStorage :=
  {| ls_item := Some (SessionsJson [doorSession; gateSession]); ls_writable := true |}.

Definition garbledStorage : LocalStorage :=
  {| ls_item := Some Malformed; ls_writable := true |}.

(** The door conversation on screen, with its session stored. *)
Definition inDoorSession : Engine :=
  {| app := {| currentUser := Some guest; currentSessionId := Some (lit "a");
               messages := cs_messages doorSession; input := []; isLoading := false;
               deepThink := false; analyzeMode := true; optimizeMode := false;
               attachments := []; editingMessageId := None; editContent := [] |};
     storage := twoSessions; apiKey := someKey; pending := [] |}.

(** The same a moment after a further question was sent. *)
Definition awaitingInDoorSession : Engine :=
  handleSend (Some (lit "make it red")) (lit "u2") (lit "s9") 20 inDoorSession.

(** A round with a send, a toggle, the reply, a code action and a load. *)
Definition busyAfternoon : list Action :=
  [ Core (Send (Some (lit "make a door")) (lit "u1") (lit "s1") 1);
    ToggleOptimize;
    Core (Settle 0 (Gemini.Responded (Some (lit "here is a door"))) (lit "m1") 2);
    CodeAction (lit "explain") (lit "print(1)") (lit "u2") (lit "s2") 3;
    LoadSession gateSession false 4;
    Core (Settle 0 (Gemini.Rejected TransportError) (lit "m2") 5);
    Core (ClickEdit 0);
    Core (SaveEdit 6) ].

(** Ids as the scenarios write them: those of user messages begin with
    the letter u. *)
Definition roleByFirstLetter (id : jsstring) : Role :=
  match id with
  | 117%N :: _ => user
  | _ => model
  end.

(** A question asked and answered, a click on the place of the answer,
    the edit box opened on the question, and a new chat started before
    the edit is saved. *)
Definition editLeftBehind : list Action :=
  [ Core (Send (Some (lit "make a door")) (lit "u1") (lit "s1") 1);
    Core (Settle 0 (Gemini.Responded (Some (lit "here is a door"))) (lit "m1") 2);
    Core (ClickEdit 1);
    Core (ClickEdit 0);
    Core (TypeEdit (lit "make a gate"));
    Core (NewChat 3) ].

End Scenarios.

(** * Properties *)

(** ** White space and [trim] *)

Section TrimFacts.

Lemma trimStart_nil_blank (s : jsstring) : trimStart s = [] <-> blank s.
Proof.
  unfold blank. induction s as [|c s IH]; simpl.
  - split; [constructor | reflexivity].
  - destruct (isWhiteSpace c) eqn:Hc.
    + rewrite IH. split.
      * intros H. constructor; assumption.
      * intros H. inversion H; assumption.
    + split; [discriminate |].
      intros H. inversion H as [|? ? Hw _]. congruence.
Qed.

Lemma trimStart_head (s : jsstring) (c : N) (t : jsstring) :
  trimStart s = c :: t -> isWhiteSpace c = false.
Proof.
  induction s as [|d s IH]; simpl; [discriminate |].
  destruct (isWhiteSpace d) eqn:Hd; [exact IH |].
  intros [= -> _]. exact Hd.
Qed.

Lemma blank_reverse (s : jsstring) : blank (reverse s) <-> blank s.
Proof. unfold blank. rewrite !Forall_forall. setoid_rewrite elem_of_reverse. reflexivity. Qed.

(** [!s.trim()] holds exactly for the empty and the white-space-only
    strings. *)
Lemma trim_falsy_blank (s : jsstring) : truthy (trim s) = false <-> blank s.
Proof.
  assert (Hnil : forall t : jsstring, truthy t = false <-> t = []).
  { intros [|? ?]; simpl; split; congruence. }
  rewrite Hnil. unfold trim, trimEnd. split.
  - intros H. apply (f_equal reverse) in H. rewrite reverse_involutive in H.
    simpl in H. apply (proj1 (trimStart_nil_blank _)) in H.
    apply (proj1 (blank_reverse _)) in H.
    destruct (trimStart s) as [|c t] eqn:Hs.
    + apply trimStart_nil_blank. exact Hs.
    + apply trimStart_head in Hs. unfold blank in H.
      inversion H as [|? ? Hw _]. congruence.
  - intros H. apply trimStart_nil_blank in H. rewrite H. reflexivity.
Qed.

Lemma trim_truthy_not_blank (s : jsstring) : truthy (trim s) = true <-> ~ blank s.
Proof.
  rewrite <- trim_falsy_blank. destruct (truthy (trim s)); split; congruence.
Qed.

End TrimFacts.

(** ** The prompt composer *)

Module GeminiFacts.

Import Gemini.

Lemma systemInstruction_of_request (a : Args) :
  systemInstruction (req_config (buildRequest a))
  = systemInstructionOf (a_analyzeMode a) (a_optimizeMode a).
Proof. reflexivity. Qed.

(** C4. The system instruction is the base persona instruction, then the
    analysis block when [analyzeMode] is set, then the optimisation
    block when [optimizeMode] is set (each block after a blank line),
    and, exactly when one of the two blocks was added, the closing
    directive that lists the active modes by name in that same order.
    The instruction placed in a request is this function of the two
    flags, whatever the history, the new turn and [deepThink] are, so
    equal mode sets give the same text. *)
Theorem C4_system_instruction_layout :
  systemInstructionOf false false = BASE_INSTRUCTION /\
  systemInstructionOf true false
    = BASE_INSTRUCTION ++ nl ++ nl ++ ANALYZE_INSTRUCTION ++ directive "Analysis" /\
  systemInstructionOf false true
    = BASE_INSTRUCTION ++ nl ++ nl ++ OPTIMIZE_INSTRUCTION ++ directive "Optimization" /\
  systemInstructionOf true true
    = BASE_INSTRUCTION ++ nl ++ nl ++ ANALYZE_INSTRUCTION
        ++ nl ++ nl ++ OPTIMIZE_INSTRUCTION ++ directive "Analysis, Optimization" /\
  (forall a : Args,
      systemInstruction (req_config (buildRequest a))
      = systemInstructionOf (a_analyzeMode a) (a_optimizeMode a)).
Proof.
  repeat split; try (vm_compute; reflexivity).
Qed.

(** C5. The model name of a request is [getModelName] of [deepThink]
    alone: the deep-reasoning variant when it is set, the default one
    otherwise, and the two differ. The request has a [thinkingConfig]
    (with the fixed budget 8192) exactly when [deepThink] is set, and no
    such field at all otherwise. *)
Theorem C5_model_and_budget_follow_deepThink (a : Args) :
  req_model (buildRequest a) = getModelName (a_deepThink a) /\
  getModelName true = lit "gemini-2.5-flash" /\
  getModelName false = lit "gemini-3-pro-preview" /\
  getModelName true <> getModelName false /\
  thinkingConfig (req_config (buildRequest a))
    = (if a_deepThink a then Some {| thinkingBudget := 8192 |} else None) /\
  (is_Some (thinkingConfig (req_config (buildRequest a))) <-> a_deepThink a = true).
Proof.
  do 3 (split; [reflexivity |]).
  split; [vm_compute; discriminate |].
  split; [reflexivity |].
  simpl. destruct (a_deepThink a); split; intros H.
  - reflexivity.
  - eexists. reflexivity.
  - destruct H as [x Hx]. discriminate.
  - discriminate.
Qed.

End GeminiFacts.

(** ** The session store *)

Module StorageFacts.

Import Storage.

Lemma getLocalSessions_total (ls : LocalStorage) :
  getLocalSessions ls = (inr (stored ls), ls).
Proof.
  unfold stored, getLocalSessions, try_catch, bind, getItem.
  destruct ls as [[[l|]|] w]; reflexivity.
Qed.

Lemma saveLocalSessions_total (sessions : list ChatSession) (ls : LocalStorage) :
  saveLocalSessions sessions ls
  = (inr tt, if ls_writable ls
             then {| ls_item := Some (SessionsJson sessions); ls_writable := true |}
             else ls).
Proof.
  unfold saveLocalSessions, try_catch, setItem, JSON_stringify.
  destruct (ls_writable ls) eqn:Hw; rewrite ?Hw; reflexivity.
Qed.

Lemma stored_after_save (sessions : list ChatSession) (ls : LocalStorage) :
  stored (snd (saveLocalSessions sessions ls))
  = if ls_writable ls then sessions else stored ls.
Proof.
  rewrite saveLocalSessions_total. destruct (ls_writable ls); reflexivity.
Qed.

Lemma sessionTitle_empty : sessionTitle [] = lit "New Chat".
Proof. reflexivity. Qed.

Lemma sessionTitle_short (content : jsstring) :
  content <> [] -> length content <= 30 -> sessionTitle content = content.
Proof.
  intros Hne Hlen. unfold sessionTitle, slice0.
  destruct (Nat.ltb_spec 30 (length content)) as [Hlt | _]; [lia |].
  rewrite take_ge by lia. rewrite app_nil_r.
  destruct content; [congruence | reflexivity].
Qed.

Lemma sessionTitle_long (content : jsstring) :
  30 < length content -> sessionTitle content = take 30 content ++ lit "...".
Proof.
  intros Hlen. unfold sessionTitle, slice0.
  destruct (Nat.ltb_spec 30 (length content)) as [_ | Hle]; [| lia].
  destruct content as [|c content]; [simpl in Hlen; lia |]. reflexivity.
Qed.


Lemma createSession_total (userId : jsstring) (firstMessage : Message)
    (newId : jsstring) (now : Z) (ls : LocalStorage) :
  let newSession :=
    {| cs_id := newId; cs_userId := userId;
       cs_title := sessionTitle (msg_content firstMessage);
       cs_messages := [firstMessage]; cs_lastUpdated := now |} in
  createSession userId firstMessage newId now ls
  = (inr newSession, snd (saveLocalSessions (stored ls ++ [newSession]) ls)).
Proof.
  unfold createSession, bind. rewrite getLocalSessions_total.
  rewrite saveLocalSessions_total. reflexivity.
Qed.

(** C9. [createSession] always returns a session, and its title is
    derived from the content of the first message: the fixed title
    "New Chat" for an empty content, the content itself when it has at
    most 30 code units, and its first 30 code units followed by "..."
    when it has more, so that the ellipsis is there exactly when
    something was cut off. *)
Theorem C9_title_of_new_session (userId : jsstring) (firstMessage : Message)
    (newId : jsstring) (now : Z) (ls : LocalStorage) :
  let content := msg_content firstMessage in
  exists s ls',
    createSession userId firstMessage newId now ls = (inr s, ls') /\
    (content = [] -> cs_title s = lit "New Chat") /\
    (content <> [] -> length content <= 30 -> cs_title s = content) /\
    (30 < length content -> cs_title s = take 30 content ++ lit "...").
Proof.
  intros content. rewrite createSession_total.
  eexists _, _. split; [reflexivity |]. simpl. fold content.
  split; [| split].
  - intros ->. apply sessionTitle_empty.
  - apply sessionTitle_short.
  - apply sessionTitle_long.
Qed.

Lemma findIndex_Some {A} (P : A -> Prop) `{!forall x, Decision (P x)}
    (l : list A) (i : nat) :
  findIndex P l = Some i ->
  exists x, l !! i = Some x /\ P x /\ forall j y, l !! j = Some y -> j < i -> ~ P y.
Proof.
  unfold findIndex. destruct (list_find P l) as [[j x]|] eqn:Hf; [| discriminate].
  intros [= <-]. exists x. apply list_find_Some in Hf. exact Hf.
Qed.

Lemma updateSession_total (sessionId : jsstring) (newMessages : list Message)
    (now : Z) (ls : LocalStorage) :
  updateSession sessionId newMessages now ls
  = (inr tt,
     match findIndex (fun s => cs_id s = sessionId) (stored ls) with
     | Some index =>
         snd (saveLocalSessions
                (alter (overwrite newMessages now) index (stored ls)) ls)
     | None => ls
     end).
Proof.
  unfold updateSession, bind. rewrite getLocalSessions_total.
  destruct (findIndex _ (stored ls)); [| reflexivity].
  rewrite saveLocalSessions_total. reflexivity.
Qed.

(** C10. [updateSession] never throws. It keeps the number of stored
    sessions, leaves every stored session whose id is not [sessionId] as
    it was and where it was, and when no stored session has that id the
    whole of [localStorage] is left as it was. *)
Theorem C10_updateSession_touches_one_session (sessionId : jsstring)
    (newMessages : list Message) (now : Z) (ls : LocalStorage) :
  exists ls',
    updateSession sessionId newMessages now ls = (inr tt, ls') /\
    length (stored ls') = length (stored ls) /\
    (forall j s, stored ls !! j = Some s -> cs_id s <> sessionId ->
                 stored ls' !! j = Some s) /\
    ((forall s, s ∈ stored ls -> cs_id s <> sessionId) -> ls' = ls).
Proof.
  rewrite updateSession_total. eexists. split; [reflexivity |].
  destruct (findIndex _ (stored ls)) as [index|] eqn:Hf.
  - rewrite stored_after_save.
    apply findIndex_Some in Hf as (x & Hx & Hid & _).
    destruct (ls_writable ls).
    + split; [apply length_alter |]. split.
      * intros j s Hj Hne. destruct (decide (j = index)) as [-> | Hji].
        -- congruence.
        -- rewrite list_lookup_alter_ne by congruence. exact Hj.
      * intros Hall. exfalso. apply (Hall x); [| exact Hid].
        apply list_elem_of_lookup. eauto.
    + split; [reflexivity |]. split; [auto |].
      intros Hall. exfalso. apply (Hall x); [| exact Hid].
      apply list_elem_of_lookup. eauto.
  - split; [reflexivity |]. split; auto.
Qed.

End StorageFacts.

(** ** The conversation engine *)

Module AppFacts.

Import Storage App StorageFacts Scenarios.

(** The persistence effect only writes to [localStorage]. *)
Lemma app_persistEffect (now : Z) (e : Engine) : app (persistEffect now e) = app e.
Proof.
  unfold persistEffect.
  destruct (currentUser (app e)), (currentSessionId (app e)) as [sid|]; try reflexivity.
  destruct (truthy sid && (0 <? length (messages (app e)))); reflexivity.
Qed.

Lemma pending_persistEffect (now : Z) (e : Engine) :
  pending (persistEffect now e) = pending e.
Proof.
  unfold persistEffect.
  destruct (currentUser (app e)), (currentSessionId (app e)) as [sid|]; try reflexivity.
  destruct (truthy sid && (0 <? length (messages (app e)))); reflexivity.
Qed.

Lemma persistEffect_noSession (now : Z) (e : Engine) :
  noSession e -> persistEffect now e = e.
Proof.
  unfold noSession, persistEffect. intros H.
  destruct (currentUser (app e)), (currentSessionId (app e)) as [sid|]; try reflexivity.
  simpl in H. rewrite H. reflexivity.
Qed.

Lemma persistEffect_session (now : Z) (e : Engine) (u : User) (sid : jsstring) :
  currentUser (app e) = Some u -> currentSessionId (app e) = Some sid ->
  sid <> [] -> messages (app e) <> [] ->
  storage (persistEffect now e)
  = snd (updateSession sid (messages (app e)) now (storage e)).
Proof.
  intros Hu Hs Hsid Hm. unfold persistEffect. rewrite Hu, Hs.
  destruct sid as [|c sid]; [congruence |].
  destruct (messages (app e)) as [|m l]; [congruence |]. reflexivity.
Qed.

(** *** Editing *)

Lemma insert_last_of_take {A} (l : list A) (i : nat) (x y : A) :
  l !! i = Some x -> <[i := y]> (take (i + 1) l) = take i l ++ [y].
Proof.
  intros Hi. rewrite Nat.add_1_r, (take_S_r l i x Hi).
  assert (Hlen : length (take i l) = i).
  { rewrite length_take. apply lookup_lt_Some in Hi. lia. }
  rewrite insert_app_r_alt by lia. rewrite Hlen, Nat.sub_diag. reflexivity.
Qed.

(** What an accepted [handleEditSave] leaves in the React state. *)
Lemma handleEditSave_accepted (now : Z) (e : Engine) (i : nat) (orig : Message)
    (mid : jsstring) :
  editingMessageId (app e) = Some mid -> mid <> [] ->
  ~ blank (editContent (app e)) ->
  messages (app e) !! i = Some orig -> msg_id orig = mid ->
  (forall j m, j < i -> messages (app e) !! j = Some m -> msg_id m <> mid) ->
  app (handleEditSave now e)
  = setIsLoading true (setEditingMessageId None
      (setMessages (take i (messages (app e))
                      ++ [with_content orig (editContent (app e))]) (app e)))
  /\ length (pending (handleEditSave now e)) = S (length (pending e)).
Proof.
  intros Hid Hmid Hnb Hi Ho Hfirst. unfold handleEditSave.
  rewrite Hid. simpl truthy_opt.
  destruct mid as [|c mid]; [congruence |]. simpl truthy.
  apply trim_truthy_not_blank in Hnb. rewrite Hnb. simpl.
  assert (Hf : list_find (fun m => Some (msg_id m) = Some (c :: mid)) (messages (app e))
               = Some (i, orig)).
  { apply list_find_Some. split; [exact Hi |]. split; [congruence |].
    intros j y Hj Hlt [= Hy]. exact (Hfirst j y Hlt Hj Hy). }
  rewrite Hf. rewrite app_persistEffect, pending_persistEffect. simpl.
  rewrite (insert_last_of_take _ _ orig) by exact Hi.
  split; [reflexivity |]. rewrite length_app. simpl. lia.
Qed.

(** C1. When [handleEditSave] accepts an edit of the message at index
    [i] (the first message carrying the edited id), the message sequence
    it commits before any response arrives is the first [i] messages
    unchanged followed by the original message with only its content
    replaced: it has [i + 1] messages, and the edited message keeps its
    id, attachments, timestamp and role. Everything after index [i] is
    gone. *)
Theorem C1_edit_truncates_after_edited_message (now : Z) (e : Engine) (i : nat)
    (orig : Message) (mid : jsstring) :
  editingMessageId (app e) = Some mid -> mid <> [] ->
  ~ blank (editContent (app e)) ->
  messages (app e) !! i = Some orig -> msg_id orig = mid ->
  (forall j m, j < i -> messages (app e) !! j = Some m -> msg_id m <> mid) ->
  let newText := editContent (app e) in
  let after := messages (app (handleEditSave now e)) in
  length after = i + 1 /\
  (forall j, j < i -> after !! j = messages (app e) !! j) /\
  (exists edited,
      after !! i = Some edited /\
      msg_content edited = newText /\
      msg_id edited = msg_id orig /\
      msg_attachments edited = msg_attachments orig /\
      msg_timestamp edited = msg_timestamp orig /\
      msg_role edited = msg_role orig /\
      msg_isThinking edited = msg_isThinking orig) /\
  (forall j, i < j -> after !! j = None).
Proof.
  intros Hid Hmid Hnb Hi Ho Hfirst newText after.
  destruct (handleEditSave_accepted now e i orig mid Hid Hmid Hnb Hi Ho Hfirst)
    as [Happ _].
  subst after. rewrite Happ. simpl.
  assert (Hlen : length (take i (messages (app e))) = i).
  { rewrite length_take. apply lookup_lt_Some in Hi. lia. }
  split; [rewrite length_app, Hlen; reflexivity |]. split; [| split].
  - intros j Hj. rewrite lookup_app_l by lia. apply lookup_take_lt. exact Hj.
  - exists (with_content orig newText).
    split; [| repeat split].
    rewrite lookup_app_r by lia. rewrite Hlen, Nat.sub_diag. reflexivity.
  - intros j Hj. apply lookup_ge_None. rewrite length_app, Hlen. simpl. lia.
Qed.

(** [handleEditSave] returns at once when no edit is open, when the new
    text is blank, or when no message has the edited id. *)
Lemma handleEditSave_rejected (now : Z) (e : Engine) :
  truthy_opt (editingMessageId (app e)) = false \/
  blank (editContent (app e)) \/
  (forall m, m ∈ messages (app e) -> Some (msg_id m) <> editingMessageId (app e)) ->
  handleEditSave now e = e.
Proof.
  unfold handleEditSave. intros [H | [H | H]].
  - rewrite H. reflexivity.
  - apply trim_falsy_blank in H. rewrite H. rewrite orb_true_r. reflexivity.
  - destruct (negb _ || negb _); [reflexivity |].
    destruct (list_find _ (messages (app e))) as [[i x]|] eqn:Hf; [| reflexivity].
    apply list_find_Some in Hf as (Hx & Hid & _).
    exfalso. apply (H x); [| exact Hid]. apply list_elem_of_lookup. eauto.
Qed.

(** The pencil button is absent on a model message and while loading. *)
Lemma editButton_absent (k : nat) (e : Engine) :
  (forall m, messages (app e) !! k = Some m -> msg_role m = model)
  \/ isLoading (app e) = true ->
  editButton k e = e.
Proof.
  unfold editButton. intros H.
  destruct (messages (app e) !! k) as [m|]; [| reflexivity].
  destruct H as [H | H].
  - rewrite (H m eq_refl). rewrite andb_false_r. reflexivity.
  - rewrite H. rewrite andb_false_r. reflexivity.
Qed.

(** *** Sending *)

Lemma handleSend_rejected (manualInput : option jsstring) (msgId sessId : jsstring)
    (now : Z) (e : Engine) :
  sendRejected manualInput e = true -> handleSend manualInput msgId sessId now e = e.
Proof.
  unfold sendRejected, textToSend, handleSend. intros ->. reflexivity.
Qed.

Lemma handleSend_while_loading (manualInput : option jsstring) (msgId sessId : jsstring)
    (now : Z) (e : Engine) :
  isLoading (app e) = true -> handleSend manualInput msgId sessId now e = e.
Proof.
  intros H. apply handleSend_rejected. unfold sendRejected.
  rewrite H. apply orb_true_r.
Qed.

(** C7. A send whose text is empty or white space only, with no staged
    attachment, returns the engine as it was: same React state, same
    [localStorage], and no completion call added to the pending ones. *)
Theorem C7_blank_send_is_noop (manualInput : option jsstring)
    (msgId sessId : jsstring) (now : Z) (e : Engine) :
  blank (textToSend manualInput e) -> attachments (app e) = [] ->
  handleSend manualInput msgId sessId now e = e.
Proof.
  intros Hb Ha. apply handleSend_rejected. unfold sendRejected.
  apply trim_falsy_blank in Hb. rewrite Hb, Ha. reflexivity.
Qed.

Lemma handleSend_accepted (manualInput : option jsstring) (msgId sessId : jsstring)
    (now : Z) (e : Engine) :
  sendRejected manualInput e = false ->
  let e' := handleSend manualInput msgId sessId now e in
  messages (app e') = messages (app e) ++ [userMessageOf manualInput msgId now e] /\
  isLoading (app e') = true /\
  attachments (app e') = [] /\
  exists p,
    pending e' = pending e ++ [p] /\
    p_origin p = FromSend /\
    Gemini.a_history (p_args p) = withoutWelcome (messages (app e)) /\
    Gemini.a_newMessage (p_args p) = textToSend manualInput e /\
    p_call p = Gemini.prepare (apiKey e) (p_args p).
Proof.
  intros Hacc e'. subst e'. unfold handleSend.
  unfold sendRejected, textToSend in Hacc. rewrite Hacc.
  cbv beta iota zeta.
  destruct (currentUser (app e)) as [u|];
    [destruct (negb (truthy_opt (currentSessionId (app e))));
      [destruct (createSession _ _ _ _ _) as [[err|s] ls'] |] |];
    rewrite app_persistEffect, pending_persistEffect;
    (split; [destruct (negb (truthy_opt manualInput)); reflexivity |];
     split; [destruct (negb (truthy_opt manualInput)); reflexivity |];
     split; [destruct (negb (truthy_opt manualInput)); reflexivity |];
     eexists; split; [reflexivity |]; repeat split).
Qed.

(** *** Settling *)

(** Whatever the call settles with, the continuation appends one model
    message, clears [isLoading] and removes the call from the pending
    ones; the text is the response on success and the fixed text of the
    handler on failure. *)
Lemma resolve_appends (k : nat) (r : Gemini.Remote) (botId : jsstring) (now : Z)
    (e : Engine) (p : Pending) :
  pending e !! k = Some p ->
  let text := match Gemini.settle (p_call p) r with
              | inr responseText => responseText
              | inl _ => errorContent (p_origin p)
              end in
  resolve k r botId now e
  = persistEffect now
      {| app := setIsLoading false
                  (setMessages (messages (app e) ++ [replyMessage botId text now]) (app e));
         storage := storage e; apiKey := apiKey e; pending := delete k (pending e) |}.
Proof.
  intros Hp text. subst text. unfold resolve. rewrite Hp.
  destruct (Gemini.settle (p_call p) r); reflexivity.
Qed.



(** *** Rejected edits *)

(** *** Session creation *)

Lemma startNewChat_creates_nothing (now : Z) (e : Engine) :
  startNewChat now e
  = {| app := setCurrentSessionId None (setMessages [] (app e));
       storage := storage e; apiKey := apiKey e; pending := pending e |}.
Proof. unfold startNewChat. apply persistEffect_noSession. reflexivity. Qed.










(** C2 (the code at the failing trace). After [saveDuringSend] up to the
    second send the engine is loading with one call pending; the save of
    the edit is not refused: it truncates the sequence to the edited
    message and dispatches a second call, so that two completion calls
    are pending at once, one of [handleSend] and one of [handleEditSave],
    both handed to the remote model. A second send at that point is
    refused. *)
Theorem C2_edit_saved_while_awaiting_response :
  let before := run (initial emptyStorage someKey) (take 5 saveDuringSend) in
  let after := run (initial emptyStorage someKey) saveDuringSend in
  isLoading (app before) = true /\
  p_origin <$> pending before = [FromSend] /\
  after = handleEditSave 4 before /\
  p_origin <$> pending after = [FromSend; FromEdit] /\
  Forall (fun p => p_call p = inr (Gemini.buildRequest (p_args p))) (pending after) /\
  messages (app after) = [userMsg "u1" "make a gate" 1] /\
  handleSend (Some (lit "again")) (lit "u3") (lit "s3") 5 before = before.
Proof.
  cbv zeta. split; [vm_compute; reflexivity |]. split; [vm_compute; reflexivity |].
  split; [vm_compute; reflexivity |]. split; [vm_compute; reflexivity |].
  split; [vm_compute; repeat constructor |]. split; [vm_compute; reflexivity |].
  apply handleSend_while_loading. vm_compute. reflexivity.
Qed.



(** [handleEditSave] itself does not look at the role: in a state in
    which the edit box holds the id of a model message, it rewrites that
    message and dispatches a call. The edit button never produces such a
    state as long as user and model messages do not share an id. *)
Lemma save_rewrites_the_message_of_the_edited_id :
  (forall m, m ∈ messages (app editingReply) ->
             Some (msg_id m) = editingMessageId (app editingReply) ->
             msg_role m = model) /\
  messages (app (handleEditSave 3 editingReply))
    = [userMsg "u1" "make a door" 1; modelMsg "m1" "here is a window" 2] /\
  length (pending (handleEditSave 3 editingReply)) = 1 /\
  handleEditSave 3 editingReply <> editingReply.
Proof.
  split; [| split; [vm_compute; reflexivity | split; [vm_compute; reflexivity |]]].
  2: { intros H. apply (f_equal (fun e => length (pending e))) in H.
       vm_compute in H. discriminate. }
  intros m Hin Hid. unfold editingReply, showing in Hin. simpl in Hin.
  apply elem_of_cons in Hin as [-> | Hin]; [vm_compute in Hid; discriminate |].
  apply list_elem_of_singleton in Hin as ->. reflexivity.
Qed.

(** The same through the user interface, when [generateId()] returns
    for a user message the id it gave to an earlier model message: the
    edit is opened on the user message at index 2, and the save rewrites
    the model message at index 1, the first one with that id. *)
Lemma edit_reaches_model_message_on_id_clash :
  let e := run (initial emptyStorage someKey)
    [ Send (Some (lit "make a door")) (lit "u1") (lit "s1") 1;
      Settle 0 (Gemini.Responded (Some (lit "here is a door"))) (lit "x7") 2;
      Send (Some (lit "make it red")) (lit "x7") (lit "s2") 3;
      Settle 0 (Gemini.Responded (Some (lit "here is a red door"))) (lit "m2") 4;
      ClickEdit 2;
      TypeEdit (lit "make it blue");
      SaveEdit 5 ] in
  messages (app e)
  = [userMsg "u1" "make a door" 1; modelMsg "x7" "make it blue" 2].
Proof. vm_compute. reflexivity. Qed.

(** *** Edits reach user messages only *)

Lemma editsUserMessages_same (roleOf : jsstring -> Role) (e e' : Engine) :
  messages (app e') = messages (app e) ->
  editingMessageId (app e') = editingMessageId (app e) ->
  editsUserMessages roleOf e -> editsUserMessages roleOf e'.
Proof. unfold editsUserMessages. intros -> ->. auto. Qed.

Lemma editsUserMessages_snoc (roleOf : jsstring -> Role) (e e' : Engine)
    (m : Message) :
  messages (app e') = messages (app e) ++ [m] ->
  editingMessageId (app e') = editingMessageId (app e) ->
  msg_role m = roleOf (msg_id m) ->
  editsUserMessages roleOf e -> editsUserMessages roleOf e'.
Proof.
  unfold editsUserMessages, rolesById. intros -> -> Hm [Hroles Hedit].
  split; [| exact Hedit]. apply Forall_app. split; [exact Hroles |].
  constructor; [exact Hm | constructor].
Qed.

Lemma editsUserMessages_reset (roleOf : jsstring -> Role) (e e' : Engine)
    (l : list Message) :
  messages (app e') = l -> rolesById roleOf l ->
  editingMessageId (app e') = editingMessageId (app e) ->
  editsUserMessages roleOf e -> editsUserMessages roleOf e'.
Proof.
  unfold editsUserMessages. intros -> Hl -> [_ Hedit]. split; assumption.
Qed.

Lemma handleSend_editsUserMessages (roleOf : jsstring -> Role)
    (manualInput : option jsstring) (msgId sessId : jsstring) (now : Z) (e : Engine) :
  roleOf msgId = user -> editsUserMessages roleOf e ->
  editsUserMessages roleOf (handleSend manualInput msgId sessId now e).
Proof.
  intros Hid Hinv. destruct (sendRejected manualInput e) eqn:Hrej.
  - rewrite handleSend_rejected by exact Hrej. exact Hinv.
  - destruct (handleSend_accepted manualInput msgId sessId now e Hrej) as (Hm & _).
    apply (editsUserMessages_snoc roleOf e _ _ Hm); [| symmetry; exact Hid | exact Hinv].
    unfold handleSend. unfold sendRejected, textToSend in Hrej. rewrite Hrej.
    cbv beta iota zeta.
    destruct (currentUser (app e)) as [u|];
      [destruct (negb (truthy_opt (currentSessionId (app e))));
        [destruct (createSession _ _ _ _ _) as [[err|s] ls'] |] |];
      rewrite app_persistEffect; destruct (negb (truthy_opt manualInput)); reflexivity.
Qed.

Lemma handleEditSave_editsUserMessages (roleOf : jsstring -> Role) (now : Z)
    (e : Engine) :
  editsUserMessages roleOf e -> editsUserMessages roleOf (handleEditSave now e).
Proof.
  intros [Hroles Hedit]. unfold handleEditSave.
  destruct (negb _ || negb _); [split; assumption |].
  destruct (list_find _ (messages (app e))) as [[i x]|] eqn:Hf; [| split; assumption].
  apply list_find_Some in Hf as (Hi & _).
  unfold editsUserMessages. rewrite app_persistEffect. cbn.
  rewrite (insert_last_of_take _ _ x) by exact Hi.
  split; [| intros mid Hmid; discriminate].
  unfold rolesById in *. apply Forall_app. split.
  - apply Forall_take. exact Hroles.
  - constructor; [| constructor]. cbn.
    rewrite Forall_forall in Hroles. apply Hroles.
    apply list_elem_of_lookup. eauto.
Qed.

Lemma act_editsUserMessages (roleOf : jsstring -> Role) (e : Engine) (a : Action) :
  editsUserMessages roleOf e -> respectsRoles roleOf a ->
  editsUserMessages roleOf (act e a).
Proof.
  intros Hinv Hresp.
  destruct a as [ev|session shown now|confirmed sid now|index|files
                 |action code msgId sessId now| | |]; simpl act.
  - destruct ev as [now|k|text| |now|text|mi msgId sessId now|k r botId now];
      simpl step.
    + rewrite startNewChat_creates_nothing.
      apply (editsUserMessages_reset roleOf e _ []);
        [reflexivity | constructor | reflexivity | exact Hinv].
    + unfold editButton. destruct (messages (app e) !! k) as [m|] eqn:Hk; [| exact Hinv].
      destruct (bool_decide (editingMessageId (app e) <> Some (msg_id m)));
        [| exact Hinv].
      destruct (bool_decide (msg_role m = user)) eqn:Hrole; [| exact Hinv].
      destruct (negb (isLoading (app e))); [| exact Hinv].
      destruct Hinv as [Hroles _]. split; [exact Hroles |].
      cbn. intros mid [= <-]. apply bool_decide_eq_true in Hrole.
      unfold rolesById in Hroles. rewrite Forall_forall in Hroles.
      rewrite <- (Hroles m); [exact Hrole |]. apply list_elem_of_lookup. eauto.
    + apply (editsUserMessages_same roleOf e); [reflexivity | reflexivity | exact Hinv].
    + destruct Hinv as [Hroles _]. split; [exact Hroles |]. cbn. discriminate.
    + apply handleEditSave_editsUserMessages. exact Hinv.
    + apply (editsUserMessages_same roleOf e); [reflexivity | reflexivity | exact Hinv].
    + apply handleSend_editsUserMessages; assumption.
    + destruct (pending e !! k) as [p|] eqn:Hp.
      * rewrite (resolve_appends k r botId now e p Hp).
        eapply (editsUserMessages_snoc roleOf e);
          [rewrite app_persistEffect; reflexivity
          | rewrite app_persistEffect; reflexivity
          | symmetry; exact Hresp | exact Hinv].
      * unfold resolve. rewrite Hp. exact Hinv.
  - unfold loadSession.
    destruct (sameConversation _ _ _);
      (apply (editsUserMessages_reset roleOf e _ (cs_messages session));
       [rewrite ?app_persistEffect; reflexivity | exact Hresp
        | rewrite ?app_persistEffect; reflexivity | exact Hinv]).
  - unfold App.deleteSession. destruct confirmed; [| exact Hinv].
    destruct (Storage.deleteSession sid (storage e)) as [[err|u] ls'].
    + apply (editsUserMessages_same roleOf e); [reflexivity | reflexivity | exact Hinv].
    + destruct (bool_decide _).
      * rewrite startNewChat_creates_nothing.
        apply (editsUserMessages_reset roleOf e _ []);
          [reflexivity | constructor | reflexivity | exact Hinv].
      * apply (editsUserMessages_same roleOf e); [reflexivity | reflexivity | exact Hinv].
  - apply (editsUserMessages_same roleOf e); [reflexivity | reflexivity | exact Hinv].
  - apply (editsUserMessages_same roleOf e); [| | exact Hinv];
      unfold handleFileUpload; destruct files as [[|f files]|]; try reflexivity;
      cbn [onApp app]; destruct (readFiles _ _ _); reflexivity.
  - unfold handleCodeAction.
    destruct (bool_decide (action = lit "explain"));
      [apply handleSend_editsUserMessages; assumption |].
    destruct (bool_decide (action = lit "refactor")); [| exact Hinv].
    destruct (negb (optimizeMode (app e)));
      [| apply handleSend_editsUserMessages; assumption].
    match goal with
    | |- editsUserMessages _ (onApp _ ?E) =>
        apply (editsUserMessages_same roleOf E); [reflexivity | reflexivity |]
    end.
    apply handleSend_editsUserMessages; assumption.
  - apply (editsUserMessages_same roleOf e); [reflexivity | reflexivity | exact Hinv].
  - apply (editsUserMessages_same roleOf e); [reflexivity | reflexivity | exact Hinv].
  - apply (editsUserMessages_same roleOf e); [reflexivity | reflexivity | exact Hinv].
Qed.

Lemma perform_editsUserMessages (roleOf : jsstring -> Role) (actions : list Action) :
  forall e : Engine,
    editsUserMessages roleOf e -> Forall (respectsRoles roleOf) actions ->
    editsUserMessages roleOf (perform e actions).
Proof.
  induction actions as [|a actions IH]; intros e Hinv Hall; simpl.
  - exact Hinv.
  - inversion Hall as [|? ? Ha Hrest]; subst.
    apply IH; [apply act_editsUserMessages; assumption | exact Hrest].
Qed.

(** C6. With ids that keep user and model messages apart (no id is ever
    the id of both), in every engine that the actions of the user and of
    the network lead to, saving an edit changes nothing at all (state,
    store and pending calls) whenever no edit is open, whenever the new
    text is empty or white space only, and whenever the edited id is not
    the id of a user message of the sequence; and an edit cannot be aimed
    at a model message: a click on its place changes nothing. *)
Theorem C6_edit_rejected_without_user_message_or_text
    (roleOf : jsstring -> Role) (e0 : Engine) (actions : list Action)
    (now : Z) (k : nat) :
  editsUserMessages roleOf e0 -> Forall (respectsRoles roleOf) actions ->
  let e := perform e0 actions in
  (truthy_opt (editingMessageId (app e)) = false \/
   blank (editContent (app e)) \/
   (forall m, m ∈ messages (app e) ->
              Some (msg_id m) = editingMessageId (app e) -> msg_role m <> user) ->
   handleEditSave now e = e) /\
  ((forall m, messages (app e) !! k = Some m -> msg_role m = model) ->
   editButton k e = e).
Proof.
  intros Hinv Hall e.
  destruct (perform_editsUserMessages roleOf actions e0 Hinv Hall) as [Hroles Hedit].
  fold e in Hroles, Hedit. split.
  - intros [H | [H | H]]; apply handleEditSave_rejected; [auto | auto |].
    right. right. intros m Hin Hid. apply (H m Hin Hid).
    unfold rolesById in Hroles. rewrite Forall_forall in Hroles.
    rewrite (Hroles m Hin). apply Hedit. symmetry. exact Hid.
  - intros H. apply editButton_absent. left. exact H.
Qed.

(** *** The theorems at concrete inputs *)

Lemma not_blank_of_trim (s : jsstring) : truthy (trim s) = true -> ~ blank s.
Proof. apply trim_truthy_not_blank. Qed.

Lemma blank_of_trim (s : jsstring) : truthy (trim s) = false -> blank s.
Proof. apply trim_falsy_blank. Qed.

(** Saving the edit of the second question of [twoRounds] leaves three
    messages. *)
Lemma C1_witness :
  editingMessageId (app editingSecondQuestion) = Some (lit "u2") /\
  messages (app editingSecondQuestion) !! 2 = Some (userMsg "u2" "make it red" 3) /\
  length (messages (app (handleEditSave 5 editingSecondQuestion))) = 2 + 1.
Proof.
  split; [reflexivity |]. split; [reflexivity |].
  refine (proj1 (C1_edit_truncates_after_edited_message 5 editingSecondQuestion 2
                   (userMsg "u2" "make it red" 3) (lit "u2")
                   eq_refl _ _ eq_refl eq_refl _)).
  - discriminate.
  - apply not_blank_of_trim. vm_compute. reflexivity.
  - intros j m Hj Hm Hid. destruct j as [|[|j]]; [| | lia].
    + vm_compute in Hm. injection Hm as <-. vm_compute in Hid. discriminate.
    + vm_compute in Hm. injection Hm as <-. vm_compute in Hid. discriminate.
Defined.


(** After [editLeftBehind] the edit box still holds the id of the
    question, which is in the sequence no more: the save is refused, and
    so was the click on the place of the answer. *)
Lemma C6_witness :
  let e := perform (initial emptyStorage someKey) editLeftBehind in
  editingMessageId (app e) = Some (lit "u1") /\ messages (app e) = [] /\
  handleEditSave 5 e = e.
Proof.
  cbv zeta. split; [vm_compute; reflexivity |]. split; [vm_compute; reflexivity |].
  refine (proj1 (C6_edit_rejected_without_user_message_or_text roleByFirstLetter
                   (initial emptyStorage someKey) editLeftBehind 5 0 _ _) _).
  - split; [constructor | intros mid Hmid; discriminate].
  - repeat constructor.
  - right. right. intros m Hin. vm_compute in Hin. inversion Hin.
Defined.

(** A send of three spaces with nothing attached changes nothing. *)
Lemma C7_witness :
  let e := onApp (setInput (lit "   ")) (initial emptyStorage someKey) in
  blank (textToSend None e) /\ attachments (app e) = [] /\
  handleSend None (lit "u1") (lit "s1") 1 e = e.
Proof.
  cbv zeta.
  assert (Hb : blank (textToSend None
                 (onApp (setInput (lit "   ")) (initial emptyStorage someKey)))).
  { apply blank_of_trim. vm_compute. reflexivity. }
  split; [exact Hb |]. split; [reflexivity |].
  exact (C7_blank_send_is_noop None (lit "u1") (lit "s1") 1 _ Hb eq_refl).
Defined.


End AppFacts.

(** * Further properties *)

(** ** utils.ts and arrays *)

Module UtilsFacts.

Import Utils.

Lemma split_without_separator (sep : N) (s : jsstring) :
  sep ∉ s -> split sep s = [s].
Proof.
  induction s as [|c s IH]; intros Hs; simpl; [reflexivity |].
  apply not_elem_of_cons in Hs as [Hc Hs].
  destruct (N.eqb_spec c sep) as [-> | _]; [congruence |].
  rewrite (IH Hs). reflexivity.
Qed.

Lemma split_at_first_separator (sep : N) (h rest : jsstring) :
  sep ∉ h -> split sep (h ++ sep :: rest) = h :: split sep rest.
Proof.
  induction h as [|c h IH]; intros Hh; simpl.
  - rewrite N.eqb_refl. reflexivity.
  - apply not_elem_of_cons in Hh as [Hc Hh].
    destruct (N.eqb_spec c sep) as [-> | _]; [congruence |].
    rewrite (IH Hh). reflexivity.
Qed.

Lemma base64Data_of_dataURL (mime payload : jsstring) :
  44%N ∉ mime -> 44%N ∉ payload ->
  base64Data (dataURL mime payload) = Some payload.
Proof.
  intros Hm Hp. unfold base64Data, dataURL.
  change (lit ";base64," ++ payload)
    with (lit ";base64" ++ 44%N :: payload).
  rewrite !app_assoc.
  rewrite split_at_first_separator.
  - rewrite (split_without_separator _ _ Hp). reflexivity.
  - rewrite !not_elem_of_app. repeat split; [| exact Hm |];
      intros Hin; vm_compute in Hin;
      repeat (apply elem_of_cons in Hin as [Hin | Hin]; [discriminate |]);
      inversion Hin.
Qed.

(** X1. For a file that the reader turns into the data URL of a payload
    (no comma in the MIME type nor in the payload), [fileToAttachment]
    resolves with the file's name and type and with exactly the payload
    as data; and when the file's type is the MIME type of the URL, the
    image source that the application builds from the attachment is the
    reader's URL again. *)
Theorem X1_fileToAttachment_keeps_payload (file : File) (mime payload : jsstring) :
  file_dataURL file = Some (dataURL mime payload) ->
  44%N ∉ mime -> 44%N ∉ payload ->
  exists att,
    fileToAttachment file ≫= asAttachment = Some att /\
    att_name att = file_name file /\
    att_mimeType att = file_type file /\
    att_data att = payload /\
    (file_type file = mime -> imageSrc att = dataURL mime payload).
Proof.
  intros Hurl Hm Hp. unfold fileToAttachment. rewrite Hurl. simpl.
  unfold asAttachment. simpl. rewrite (base64Data_of_dataURL _ _ Hm Hp).
  eexists. split; [reflexivity |]. simpl. repeat split.
  intros ->. reflexivity.
Qed.

(** X2. When the reader result has no comma (the bare "data:" that a
    browser gives for an empty file), [fileToAttachment] still resolves,
    with a data field that is undefined: no attachment with data can be
    made of it. *)
Theorem X2_fileToAttachment_without_comma (file : File) (url : jsstring) :
  file_dataURL file = Some url -> 44%N ∉ url ->
  exists enc,
    fileToAttachment file = Some enc /\ enc_data enc = None /\
    asAttachment enc = None.
Proof.
  intros Hfile Hurl. unfold fileToAttachment. rewrite Hfile.
  eexists. split; [reflexivity |]. unfold asAttachment. simpl.
  unfold base64Data. rewrite (split_without_separator _ _ Hurl). split; reflexivity.
Qed.

Lemma filterFrom_skip {A} (index start : nat) (l : list A) :
  index < start ->
  filterFrom (fun _ i => negb (i =? index)) start l = l.
Proof.
  revert start. induction l as [|x l IH]; intros start Hlt; simpl; [reflexivity |].
  destruct (Nat.eqb_spec start index); [lia |]. simpl.
  rewrite IH by lia. reflexivity.
Qed.

Lemma filterFrom_delete {A} (index start : nat) (l : list A) :
  filterFrom (fun _ i => negb (i =? start + index)) start l = delete index l.
Proof.
  revert index start. induction l as [|x l IH]; intros index start; simpl.
  - destruct index; reflexivity.
  - destruct index as [|index].
    + rewrite Nat.add_0_r, Nat.eqb_refl. simpl. apply filterFrom_skip. lia.
    + destruct (Nat.eqb_spec start (start + S index)); [lia |]. simpl.
      replace (start + S index) with (S start + index) by lia.
      rewrite IH. reflexivity.
Qed.

End UtilsFacts.

(** ** The session store, continued *)

Module MoreStorageFacts.

Import Storage StorageFacts.

Lemma deleteSession_total (sessionId : jsstring) (ls : LocalStorage) :
  Storage.deleteSession sessionId ls
  = (inr tt,
     snd (saveLocalSessions (filter (fun s => cs_id s <> sessionId) (stored ls)) ls)).
Proof.
  unfold Storage.deleteSession, bind. rewrite getLocalSessions_total.
  rewrite saveLocalSessions_total. reflexivity.
Qed.

(** X3. On a writable store [deleteSession] returns normally and leaves
    no session with the deleted id; every session with another id stays,
    in the same order; and deleting an id that is not stored leaves the
    collection as it was. *)
Theorem X3_deleteSession_removes_every_match (sessionId : jsstring)
    (ls : LocalStorage) :
  ls_writable ls = true ->
  exists ls',
    Storage.deleteSession sessionId ls = (inr tt, ls') /\
    Forall (fun s => cs_id s <> sessionId) (stored ls') /\
    (forall s, cs_id s <> sessionId -> s ∈ stored ls -> s ∈ stored ls') /\
    sublist (stored ls') (stored ls) /\
    (Forall (fun s => cs_id s <> sessionId) (stored ls) -> stored ls' = stored ls).
Proof.
  intros Hw. rewrite deleteSession_total. eexists. split; [reflexivity |].
  rewrite stored_after_save, Hw.
  split; [| split; [| split]].
  - apply Forall_forall. intros s Hs. apply list_elem_of_filter in Hs. tauto.
  - intros s Hid Hs. apply list_elem_of_filter. auto.
  - apply sublist_filter.
  - intros Hall. induction Hall as [|s l Hs _ IH]; [reflexivity |].
    rewrite filter_cons_True by exact Hs. rewrite IH. reflexivity.
Qed.

(** *** [getSessions] *)

Lemma insertSorted_Permutation (x : ChatSession) (l : list ChatSession) :
  insertSorted newestFirst x l ≡ₚ x :: l.
Proof.
  induction l as [|y l IH]; simpl; [reflexivity |].
  destruct (0 <? newestFirst x y)%Z; [| reflexivity].
  rewrite IH. apply Permutation_swap.
Qed.

Lemma insertSorted_StronglySorted (x : ChatSession) (l : list ChatSession) :
  StronglySorted newerOrEqual l ->
  StronglySorted newerOrEqual (insertSorted newestFirst x l).
Proof.
  induction 1 as [|y l Hl IH Hy]; simpl.
  - repeat constructor.
  - destruct (Z.ltb_spec 0 (newestFirst x y)) as [Hlt | Hge].
    + constructor; [exact IH |].
      rewrite insertSorted_Permutation. constructor; [| exact Hy].
      unfold newerOrEqual, newestFirst in *. lia.
    + constructor; [constructor; assumption |].
      constructor; [unfold newerOrEqual, newestFirst in *; lia |].
      eapply Forall_impl; [exact Hy |].
      intros z Hz. unfold newerOrEqual, newestFirst in *. lia.
Qed.

Lemma insertSorted_stable (t : Z) (x : ChatSession) (l : list ChatSession) :
  filter (fun s => cs_lastUpdated s = t) (insertSorted newestFirst x l)
  = filter (fun s => cs_lastUpdated s = t) (x :: l).
Proof.
  induction l as [|y l IH]; cbn [insertSorted]; [reflexivity |].
  destruct (Z.ltb_spec 0 (newestFirst x y)) as [Hlt | Hge]; [| reflexivity].
  unfold newestFirst in Hlt.
  rewrite (filter_cons _ y (insertSorted _ _ _)), IH.
  rewrite (filter_cons _ x (y :: l)), (filter_cons _ y l), (filter_cons _ x l).
  destruct (decide (cs_lastUpdated y = t)), (decide (cs_lastUpdated x = t));
    try reflexivity.
  lia.
Qed.

Lemma sort_newestFirst_spec (l : list ChatSession) :
  sort newestFirst l ≡ₚ l /\
  StronglySorted newerOrEqual (sort newestFirst l) /\
  forall t, filter (fun s => cs_lastUpdated s = t) (sort newestFirst l)
            = filter (fun s => cs_lastUpdated s = t) l.
Proof.
  induction l as [|x l (Hp & Hs & Hst)]; simpl.
  - split; [reflexivity |]. split; [constructor | reflexivity].
  - split; [| split].
    + rewrite insertSorted_Permutation, Hp. reflexivity.
    + apply insertSorted_StronglySorted. exact Hs.
    + intros t. rewrite insertSorted_stable, !filter_cons, Hst. reflexivity.
Qed.

(** X4. [getSessions] returns normally and does not touch the store. Its
    result holds exactly the stored sessions, every session being at
    least as recently updated as those after it, and the sessions that
    share a time of update keep the order they have in the store. *)
Theorem X4_getSessions_newest_first (userId : jsstring) (ls : LocalStorage) :
  exists sessions,
    getSessions userId ls = (inr sessions, ls) /\
    sessions ≡ₚ stored ls /\
    StronglySorted (fun a b => (cs_lastUpdated b <= cs_lastUpdated a)%Z) sessions /\
    (forall t, filter (fun s => cs_lastUpdated s = t) sessions
               = filter (fun s => cs_lastUpdated s = t) (stored ls)).
Proof.
  unfold getSessions, bind. rewrite getLocalSessions_total.
  eexists. split; [reflexivity |]. apply sort_newestFirst_spec.
Qed.

(** *** [createSession] and [updateSession] *)

Lemma list_find_alter {A} (P : A -> Prop) `{!forall x, Decision (P x)}
    (f : A -> A) (l : list A) (i : nat) (x : A) :
  list_find P l = Some (i, x) -> P (f x) ->
  list_find P (alter f i l) = Some (i, f x).
Proof.
  intros Hf HP. apply list_find_Some in Hf as (Hi & _ & Hfirst).
  apply list_find_Some. split; [| split].
  - rewrite list_lookup_alter_eq, Hi. reflexivity.
  - exact HP.
  - intros j y Hj Hlt. rewrite list_lookup_alter_ne in Hj by lia.
    exact (Hfirst j y Hj Hlt).
Qed.

Lemma storedSession_Some (sid : jsstring) (ls : LocalStorage) (s : ChatSession) :
  storedSession sid ls = Some s ->
  exists i, list_find (fun s => cs_id s = sid) (stored ls) = Some (i, s).
Proof.
  unfold storedSession.
  destruct (list_find _ (stored ls)) as [[i x]|]; [| discriminate].
  intros [= <-]. exists i. reflexivity.
Qed.

Lemma updateSession_found (sid : jsstring) (msgs : list Message) (now : Z)
    (ls : LocalStorage) (i : nat) (s : ChatSession) :
  list_find (fun s => cs_id s = sid) (stored ls) = Some (i, s) ->
  snd (updateSession sid msgs now ls)
  = snd (saveLocalSessions (alter (overwrite msgs now) i (stored ls)) ls).
Proof.
  intros Hf. rewrite updateSession_total. unfold findIndex. rewrite Hf. reflexivity.
Qed.

Lemma updateSession_reads_back (sid : jsstring) (msgs : list Message)
    (now : Z) (ls : LocalStorage) (s : ChatSession) :
  storedSession sid ls = Some s -> ls_writable ls = true ->
  storedSession sid (snd (updateSession sid msgs now ls))
  = Some (overwrite msgs now s)
  /\ ls_writable (snd (updateSession sid msgs now ls)) = true.
Proof.
  intros Hs Hw. apply storedSession_Some in Hs as [i Hf].
  rewrite (updateSession_found _ _ _ _ _ _ Hf).
  unfold storedSession. rewrite stored_after_save, saveLocalSessions_total, Hw.
  split; [| reflexivity].
  rewrite (list_find_alter _ _ _ _ _ Hf); [reflexivity |].
  apply list_find_Some in Hf as (_ & Hid & _). exact Hid.
Qed.

(** X5. What [updateSession] writes can be read back: when the id is
    stored and the store is writable, the first stored session with that
    id afterwards has the new messages and the new time of update, and
    its id, owner and title as before. *)
Theorem X5_updateSession_read_back (sid : jsstring) (msgs : list Message)
    (now : Z) (ls : LocalStorage) (s : ChatSession) :
  storedSession sid ls = Some s -> ls_writable ls = true ->
  storedSession sid (snd (updateSession sid msgs now ls))
  = Some {| cs_id := cs_id s; cs_userId := cs_userId s; cs_title := cs_title s;
            cs_messages := msgs; cs_lastUpdated := now |}.
Proof.
  intros Hs Hw. apply (updateSession_reads_back sid msgs now ls s Hs Hw).
Qed.

Lemma overwrite_overwrite (m1 m2 : list Message) (n1 n2 : Z) (s : ChatSession) :
  overwrite m2 n2 (overwrite m1 n1 s) = overwrite m2 n2 s.
Proof. reflexivity. Qed.

(** X6. The last write wins: an update of a session wipes out what an
    earlier update of the same session wrote, so that the store after the
    two is the store after the second alone. In particular repeating an
    update changes nothing. *)
Theorem X6_updateSession_last_write_wins (sid : jsstring)
    (m1 m2 : list Message) (n1 n2 : Z) (ls : LocalStorage) :
  snd (updateSession sid m2 n2 (snd (updateSession sid m1 n1 ls)))
  = snd (updateSession sid m2 n2 ls).
Proof.
  destruct (list_find (fun s => cs_id s = sid) (stored ls)) as [[i s]|] eqn:Hf.
  - rewrite (updateSession_found sid m1 n1 ls i s Hf).
    rewrite (updateSession_found sid m2 n2 ls i s Hf).
    rewrite !saveLocalSessions_total.
    destruct (ls_writable ls) eqn:Hw; cbn [snd].
    + assert (Hid : cs_id (overwrite m1 n1 s) = sid).
      { apply list_find_Some in Hf as (_ & Hid & _). exact Hid. }
      pose proof (list_find_alter _ (overwrite m1 n1) _ _ _ Hf Hid) as Hf'.
      set (ls1 := {| ls_item := Some (SessionsJson (alter (overwrite m1 n1) i (stored ls)));
                     ls_writable := true |}).
      change (alter (overwrite m1 n1) i (stored ls)) with (stored ls1) in Hf'.
      rewrite (updateSession_found sid m2 n2 ls1 i _ Hf').
      rewrite saveLocalSessions_total. cbn [ls_writable ls1].
      change (stored ls1) with (alter (overwrite m1 n1) i (stored ls)).
      rewrite list_alter_alter_eq. reflexivity.
    + rewrite (updateSession_found sid m2 n2 ls i s Hf).
      rewrite saveLocalSessions_total, Hw. reflexivity.
  - assert (H1 : snd (updateSession sid m1 n1 ls) = ls).
    { rewrite updateSession_total. unfold findIndex. rewrite Hf. reflexivity. }
    rewrite H1. reflexivity.
Qed.

Lemma elem_of_alter {A} (f : A -> A) (i : nat) (l : list A) (x : A) :
  x ∈ alter f i l -> (exists y, l !! i = Some y /\ x = f y) \/ x ∈ l.
Proof.
  intros Hx. apply list_elem_of_lookup in Hx as [j Hj].
  destruct (decide (i = j)) as [<- | Hne].
  - rewrite list_lookup_alter_eq in Hj.
    destruct (l !! i) as [y|]; [| discriminate].
    injection Hj as <-. left. eauto.
  - rewrite list_lookup_alter_ne in Hj by exact Hne.
    right. apply list_elem_of_lookup. eauto.
Qed.

(** X7. A session updated at a time later than the time of update of
    every stored session comes first in the list that [getSessions]
    returns next, with the messages just written. *)
Theorem X7_updated_session_is_listed_first (sid userId : jsstring)
    (msgs : list Message) (now : Z) (ls : LocalStorage) (s : ChatSession) :
  storedSession sid ls = Some s -> ls_writable ls = true ->
  Forall (fun x => (cs_lastUpdated x < now)%Z) (stored ls) ->
  exists rest,
    fst (getSessions userId (snd (updateSession sid msgs now ls)))
    = inr (overwrite msgs now s :: rest).
Proof.
  intros Hs Hw Hold. apply storedSession_Some in Hs as [i Hf].
  rewrite (updateSession_found _ _ _ _ _ _ Hf).
  unfold getSessions, bind. rewrite getLocalSessions_total. cbn [fst ret].
  rewrite stored_after_save, Hw.
  set (l' := alter (overwrite msgs now) i (stored ls)).
  destruct (sort_newestFirst_spec l') as (Hperm & Hsorted & _).
  assert (Hin : overwrite msgs now s ∈ sort newestFirst l').
  { rewrite Hperm. subst l'. apply list_elem_of_lookup. exists i.
    apply list_find_Some in Hf as (Hi & _). rewrite list_lookup_alter_eq, Hi.
    reflexivity. }
  destruct (sort newestFirst l') as [|h rest] eqn:Hsort; [inversion Hin |].
  exists rest. f_equal. f_equal.
  assert (Hh : h ∈ l'). { rewrite <- Hperm. left. }
  assert (Hmax : (now <= cs_lastUpdated h)%Z).
  { apply elem_of_cons in Hin as [<- | Hin]; [simpl; lia |].
    inversion Hsorted as [|? ? _ Hall]; subst.
    rewrite Forall_forall in Hall. apply (Hall _ Hin). }
  subst l'. apply elem_of_alter in Hh as [(y & Hy & ->) | Hh].
  - apply list_find_Some in Hf as (Hi & _). congruence.
  - rewrite Forall_forall in Hold. specialize (Hold _ Hh). lia.
Qed.

(** X8. [createSession] always returns a session with the given id and
    owner, the one message it was given and the given time. On a
    writable store that session is stored after all the sessions that
    were there, which are kept; on a store that cannot be written the
    error is swallowed: the session is returned all the same and
    [localStorage] is as before, so that its id names no stored session
    unless one had it already. *)
Theorem X8_createSession_appends_or_swallows (userId : jsstring)
    (firstMessage : Message) (newId : jsstring) (now : Z) (ls : LocalStorage) :
  exists s ls',
    createSession userId firstMessage newId now ls = (inr s, ls') /\
    cs_id s = newId /\ cs_userId s = userId /\
    cs_messages s = [firstMessage] /\ cs_lastUpdated s = now /\
    (ls_writable ls = true -> stored ls' = stored ls ++ [s]) /\
    (ls_writable ls = false -> ls' = ls).
Proof.
  rewrite createSession_total. eexists _, _. split; [reflexivity |].
  do 4 (split; [reflexivity |]).
  rewrite saveLocalSessions_total. split; intros Hw; rewrite Hw; reflexivity.
Qed.

(** X9. When the stored item is missing, is the JSON of a session
    array, or is text that [JSON.parse] rejects (the contents of
    [LocalStorage]), no operation of [dbService] throws, whether the
    store can be written or not: a failed read gives the empty
    collection and a failed write is swallowed. On a store that cannot
    be written [updateSession] and [deleteSession] leave [localStorage]
    exactly as it was. *)
Theorem X9_dbService_swallows_write_errors (sid userId : jsstring)
    (msgs : list Message) (firstMessage : Message) (now : Z) (ls : LocalStorage) :
  (exists l, getSessions userId ls = (inr l, ls)) /\
  (exists s ls', createSession userId firstMessage sid now ls = (inr s, ls')) /\
  (exists ls', updateSession sid msgs now ls = (inr tt, ls') /\
               (ls_writable ls = false -> ls' = ls)) /\
  (exists ls', Storage.deleteSession sid ls = (inr tt, ls') /\
               (ls_writable ls = false -> ls' = ls)).
Proof.
  split; [| split; [| split]].
  - unfold getSessions, bind. rewrite getLocalSessions_total. eexists. reflexivity.
  - rewrite createSession_total. eexists _, _. reflexivity.
  - rewrite updateSession_total. eexists. split; [reflexivity |].
    intros Hw. destruct (findIndex _ (stored ls)); [| reflexivity].
    rewrite saveLocalSessions_total, Hw. reflexivity.
  - rewrite deleteSession_total. eexists. split; [reflexivity |].
    intros Hw. rewrite saveLocalSessions_total, Hw. reflexivity.
Qed.

(** X10. A stored item that [JSON.parse] rejects reads as the empty
    collection: [getSessions] returns no session and [updateSession]
    finds none and leaves the item alone; the next [createSession] on a
    writable store replaces the item by the one new session, and the
    next [deleteSession] by the empty collection. *)
Theorem X10_unparsable_item_reads_as_empty (sid userId : jsstring)
    (msgs : list Message) (firstMessage : Message) (now : Z) (ls : LocalStorage) :
  ls_item ls = Some Malformed ->
  getSessions userId ls = (inr [], ls) /\
  updateSession sid msgs now ls = (inr tt, ls) /\
  (ls_writable ls = true ->
   (exists s, createSession userId firstMessage sid now ls
              = (inr s, {| ls_item := Some (SessionsJson [s]); ls_writable := true |})) /\
   Storage.deleteSession sid ls
   = (inr tt, {| ls_item := Some (SessionsJson []); ls_writable := true |})).
Proof.
  intros Hitem.
  assert (Hst : stored ls = []).
  { unfold stored, getLocalSessions, try_catch, bind, getItem.
    rewrite Hitem. reflexivity. }
  split; [| split].
  - unfold getSessions, bind. rewrite getLocalSessions_total, Hst. reflexivity.
  - rewrite updateSession_total, Hst. reflexivity.
  - intros Hw. split.
    + rewrite createSession_total, saveLocalSessions_total, Hw, Hst.
      eexists. reflexivity.
    + rewrite deleteSession_total, saveLocalSessions_total, Hw, Hst. reflexivity.
Qed.

End MoreStorageFacts.

(** ** The conversation engine, continued *)

Module MoreAppFacts.

Import Storage App StorageFacts AppFacts MoreStorageFacts UtilsFacts Scenarios.

(** *** Staged attachments *)

(** X11. [removeAttachment] takes out the staged attachment at the given
    index and nothing else: the ones before it stay where they are, the
    ones after it move up by one place, and with an index past the end
    the list is as before. *)
Theorem X11_removeAttachment_removes_one (index : nat) (st : State) :
  let before := attachments st in
  let after := attachments (removeAttachment index st) in
  (index < length before -> length after = length before - 1) /\
  (forall j, j < index -> after !! j = before !! j) /\
  (forall j, index <= j -> after !! j = before !! S j) /\
  (length before <= index -> after = before) /\
  messages (removeAttachment index st) = messages st.
Proof.
  cbv zeta. unfold removeAttachment, filteri. cbn [attachments setAttachments].
  rewrite (filterFrom_delete index 0).
  split; [| split; [| split; [| split]]].
  - intros Hlt. rewrite length_delete; [lia |].
    apply lookup_lt_is_Some. exact Hlt.
  - intros j Hj. apply list_lookup_delete_lt. exact Hj.
  - intros j Hj. apply list_lookup_delete_ge. exact Hj.
  - intros Hge. rewrite delete_take_drop, take_ge, drop_ge by lia.
    apply app_nil_r.
  - reflexivity.
Qed.

Lemma readFiles_spec (files : list Upload) (acc : list Attachment)
    (alerts : list jsstring) :
  readFiles files acc alerts
  = (acc ++ omap acceptedUpload files,
     alerts ++ ((fun f => lit "File " ++ up_name f ++ lit " is too large. Max 5MB.")
                  <$> filter (fun f => (MAX_UPLOAD < up_size f)%Z) files)).
Proof.
  revert acc alerts. induction files as [|f files IH]; intros acc alerts.
  - simpl. rewrite !app_nil_r. reflexivity.
  - cbn [readFiles omap list_omap]. unfold acceptedUpload at 1.
    rewrite filter_cons.
    destruct (Z.ltb_spec MAX_UPLOAD (up_size f)) as [Hbig | Hok].
    + rewrite IH. rewrite decide_True by exact Hbig.
      rewrite fmap_cons, <- app_assoc. reflexivity.
    + rewrite decide_False by lia.
      destruct (up_read f) as [att|]; rewrite IH.
      * rewrite <- app_assoc. reflexivity.
      * reflexivity.
Qed.

(** X12. After [handleFileUpload] the staged attachments are the ones
    staged before, followed, in the order of the chosen files, by the
    attachment of every file that is at most 5 MiB (5 * 1024 * 1024
    bytes, the bound included) and could be read; larger files and files
    whose read fails add nothing, and there is one alert per larger
    file. *)
Theorem X12_handleFileUpload_stages_small_readable_files
    (files : list Upload) (st : State) :
  let result := handleFileUpload (Some files) st in
  attachments (fst result) = attachments st ++ omap acceptedUpload files /\
  (forall att, att ∈ omap acceptedUpload files <->
     exists f, f ∈ files /\ (up_size f <= 5242880)%Z /\ up_read f = Some att) /\
  length (snd result) = length (filter (fun f => (5242880 < up_size f)%Z) files) /\
  messages (fst result) = messages st.
Proof.
  cbv zeta. split; [| split; [| split]].
  - destruct files as [|f files]; [simpl; rewrite app_nil_r; reflexivity |].
    unfold handleFileUpload. rewrite readFiles_spec. reflexivity.
  - intros att. rewrite list_elem_of_omap. split.
    + intros (f & Hf & Hacc). exists f. split; [exact Hf |].
      unfold acceptedUpload in Hacc.
      destruct (Z.ltb_spec MAX_UPLOAD (up_size f)) as [_ | Hok]; [discriminate |].
      split; [exact Hok | exact Hacc].
    + intros (f & Hf & Hsize & Hread). exists f. split; [exact Hf |].
      unfold acceptedUpload.
      destruct (Z.ltb_spec MAX_UPLOAD (up_size f)) as [Hbig | _];
        [unfold MAX_UPLOAD in Hbig; lia | exact Hread].
  - destruct files as [|f files]; [reflexivity |].
    unfold handleFileUpload. rewrite readFiles_spec. cbn [snd].
    rewrite app_nil_l, length_fmap. reflexivity.
  - destruct files as [|f files]; [reflexivity |].
    unfold handleFileUpload. rewrite readFiles_spec. reflexivity.
Qed.

(** *** The calls that the handlers dispatch *)

Lemma handleSend_dispatch (manualInput : option jsstring) (msgId sessId : jsstring)
    (now : Z) (e : Engine) :
  sendRejected manualInput e = false ->
  let args :=
    {| Gemini.a_history := withoutWelcome (messages (app e));
       Gemini.a_newMessage := textToSend manualInput e;
       Gemini.a_attachments := attachments (app e);
       Gemini.a_deepThink := deepThink (app e);
       Gemini.a_analyzeMode := analyzeMode (app e);
       Gemini.a_optimizeMode := optimizeMode (app e) |} in
  pending (handleSend manualInput msgId sessId now e)
  = pending e ++ [ {| p_origin := FromSend; p_args := args;
                      p_call := Gemini.prepare (apiKey e) args |} ].
Proof.
  intros Hacc. cbv zeta. unfold handleSend.
  unfold sendRejected, textToSend in Hacc. rewrite Hacc.
  cbv beta iota zeta.
  destruct (currentUser (app e)) as [u|];
    [destruct (negb (truthy_opt (currentSessionId (app e))));
      [destruct (createSession _ _ _ _ _) as [[err|s] ls'] |] |];
    rewrite pending_persistEffect; reflexivity.
Qed.


Lemma prepare_without_key (key : option jsstring) (a : Gemini.Args) :
  truthy_opt key = false ->
  Gemini.prepare key a = inl (Error (lit "API_KEY not found in environment variables")).
Proof. intros H. unfold Gemini.prepare. rewrite H. reflexivity. Qed.




(** X15. Without a key (none, or an empty one) an accepted send never
    reaches the remote model, and whatever the remote side would have
    answered, the round ends with the user message followed by the error
    message of [handleSend], with loading cleared. *)
Theorem X15_send_without_key_ends_in_error (manualInput : option jsstring)
    (msgId sessId botId : jsstring) (now now' : Z) (r : Gemini.Remote) (e : Engine) :
  sendRejected manualInput e = false -> truthy_opt (apiKey e) = false ->
  let e1 := handleSend manualInput msgId sessId now e in
  let e2 := resolve (length (pending e)) r botId now' e1 in
  (exists p, pending e1 = pending e ++ [p] /\
             p_call p = inl (Error (lit "API_KEY not found in environment variables"))) /\
  messages (app e2)
  = messages (app e)
      ++ [ userMessageOf manualInput msgId now e;
           replyMessage botId
             (lit "I encountered a system error. Please check your API key.") now' ] /\
  isLoading (app e2) = false /\
  pending e2 = pending e.
Proof.
  intros Hacc Hkey e1 e2.
  pose proof (handleSend_dispatch manualInput msgId sessId now e Hacc) as Hp.
  cbv zeta in Hp. rewrite (prepare_without_key _ _ Hkey) in Hp. fold e1 in Hp.
  destruct (handleSend_accepted manualInput msgId sessId now e Hacc)
    as (Hm & _ & _ & _). fold e1 in Hm.
  split; [eexists; split; [exact Hp | reflexivity] |].
  assert (Hk : pending e1 !! length (pending e) = Some
            {| p_origin := FromSend;
               p_args := {| Gemini.a_history := withoutWelcome (messages (app e));
                            Gemini.a_newMessage := textToSend manualInput e;
                            Gemini.a_attachments := attachments (app e);
                            Gemini.a_deepThink := deepThink (app e);
                            Gemini.a_analyzeMode := analyzeMode (app e);
                            Gemini.a_optimizeMode := optimizeMode (app e) |};
               p_call := inl (Error (lit "API_KEY not found in environment variables")) |}).
  { rewrite Hp. apply list_lookup_middle. reflexivity. }
  subst e2. rewrite (resolve_appends _ r botId now' e1 _ Hk). cbn [p_call Gemini.settle].
  rewrite app_persistEffect, pending_persistEffect. cbn [app pending].
  split; [| split; [reflexivity |]].
  - cbn [messages setIsLoading setMessages]. rewrite Hm, <- app_assoc. reflexivity.
  - rewrite Hp, delete_middle. apply app_nil_r.
Qed.

Lemma errorContent_nonempty (o : Origin) : errorContent o <> [].
Proof. destruct o; vm_compute; discriminate. Qed.

Lemma or_else_nonempty (text : option jsstring) (d : jsstring) :
  d <> [] -> or_else text d <> [].
Proof.
  intros Hd. unfold or_else. destruct text as [[|c s]|]; simpl; congruence.
Qed.

(** X16. Whatever a pending call settles with, its continuation appends
    exactly one message to the sequence of that moment: a model message
    with the generated id, without attachments and with a text that is
    never empty. A response without text, or with the empty text, shows
    as "No response generated.". *)
Theorem X16_settled_call_appends_nonempty_model_message (k : nat)
    (r : Gemini.Remote) (botId : jsstring) (now : Z) (e : Engine) (p : Pending) :
  pending e !! k = Some p ->
  exists m,
    messages (app (resolve k r botId now e)) = messages (app e) ++ [m] /\
    msg_role m = model /\ msg_id m = botId /\ msg_attachments m = None /\
    msg_content m <> [] /\
    (forall req, p_call p = inr req ->
       r = Gemini.Responded None \/ r = Gemini.Responded (Some []) ->
       msg_content m = lit "No response generated.").
Proof.
  intros Hp. rewrite (resolve_appends k r botId now e p Hp), app_persistEffect.
  eexists. split; [reflexivity |]. do 3 (split; [reflexivity |]).
  cbn [msg_content replyMessage]. split.
  - destruct (p_call p) as [err|req]; simpl; [apply errorContent_nonempty |].
    destruct r as [text|err]; [| apply errorContent_nonempty].
    apply or_else_nonempty. vm_compute. discriminate.
  - intros req Hreq [-> | ->]; rewrite Hreq; reflexivity.
Qed.

(** *** Code actions *)

Lemma not_blank_cons (c : N) (s : jsstring) : isWhiteSpace c = false -> ~ blank (c :: s).
Proof. intros Hc H. inversion H. congruence. Qed.

Lemma codeAction_texts_accepted (code : jsstring) (e : Engine) :
  isLoading (app e) = false ->
  sendRejected (Some (lit "Explain this code in detail:" ++ nl ++ nl ++ codeFence code)) e
    = false /\
  sendRejected (Some (lit "Refactor this code:" ++ nl ++ nl ++ codeFence code)) e
    = false.
Proof.
  intros Hl. unfold sendRejected, textToSend. rewrite Hl.
  split; rewrite orb_false_r; apply andb_false_intro1, negb_false_iff,
    trim_truthy_not_blank, not_blank_cons; reflexivity.
Qed.

(** X17. A code action taken while no call is pending always sends: the
    text is never blank, so it goes out whether or not anything is typed
    or staged. The user message holds the instruction followed by the
    code in a lua fence, one call is dispatched, and what was typed in
    the input box stays there. Any other action name does nothing. *)
Theorem X17_code_action_sends_when_idle (action code msgId sessId : jsstring)
    (now : Z) (e : Engine) :
  isLoading (app e) = false ->
  let e' := handleCodeAction action code msgId sessId now e in
  (action = lit "explain" \/ action = lit "refactor" ->
   exists m,
     messages (app e') = messages (app e) ++ [m] /\
     msg_role m = user /\
     msg_content m
     = (if bool_decide (action = lit "explain")
        then lit "Explain this code in detail:" else lit "Refactor this code:")
         ++ nl ++ nl ++ lit "```lua" ++ nl ++ code ++ nl ++ lit "```" /\
     length (pending e') = S (length (pending e)) /\
     isLoading (app e') = true /\
     input (app e') = input (app e)) /\
  (action <> lit "explain" -> action <> lit "refactor" -> e' = e).
Proof.
  intros Hl e'. subst e'. unfold handleCodeAction.
  destruct (codeAction_texts_accepted code e Hl) as [Hex Hre].
  split.
  - intros Hact.
    destruct (bool_decide (action = lit "explain")) eqn:Hisex.
    + destruct (handleSend_accepted _ msgId sessId now e Hex)
        as (Hm & Hload & _ & p & Hp & _).
      eexists. split; [exact Hm |]. split; [reflexivity |]. split; [reflexivity |].
      split; [rewrite Hp, length_app; simpl; lia |]. split; [exact Hload |].
      unfold handleSend. unfold sendRejected, textToSend in Hex. rewrite Hex.
      cbv beta iota zeta.
      destruct (currentUser (app e)) as [u|];
        [destruct (negb (truthy_opt (currentSessionId (app e))));
          [destruct (createSession _ _ _ _ _) as [[err|s] ls'] |] |];
        rewrite app_persistEffect; reflexivity.
    + destruct Hact as [-> | ->]; [apply bool_decide_eq_false in Hisex; congruence |].
      rewrite bool_decide_eq_true_2 by reflexivity.
      destruct (handleSend_accepted _ msgId sessId now e Hre)
        as (Hm & Hload & _ & p & Hp & _).
      assert (Hin : input (app (handleSend
                  (Some (lit "Refactor this code:" ++ nl ++ nl ++ codeFence code))
                  msgId sessId now e)) = input (app e)).
      { unfold handleSend. unfold sendRejected, textToSend in Hre. rewrite Hre.
        cbv beta iota zeta.
        destruct (currentUser (app e)) as [u|];
          [destruct (negb (truthy_opt (currentSessionId (app e))));
            [destruct (createSession _ _ _ _ _) as [[err|s] ls'] |] |];
          rewrite app_persistEffect; reflexivity. }
      eexists.
      destruct (negb (optimizeMode (app e))); cbn [onApp app pending];
        (split; [exact Hm |]; split; [reflexivity |]; split; [reflexivity |];
         split; [rewrite Hp, length_app; simpl; lia |];
         split; [exact Hload | exact Hin]).
  - intros H1 H2.
    rewrite bool_decide_eq_false_2 by exact H1.
    rewrite bool_decide_eq_false_2 by exact H2. reflexivity.
Qed.

(** X18. The refactor action switches the optimisation mode on, but the
    call it dispatches itself is made with the mode as it was before the
    click: taken with the mode off, the request goes out without the
    optimisation flag, and hence with the instruction that has no
    optimisation block, while the mode shows as on afterwards. *)
Theorem X18_refactor_request_predates_optimize_mode (code msgId sessId : jsstring)
    (now : Z) (e : Engine) :
  isLoading (app e) = false -> optimizeMode (app e) = false ->
  let e' := handleCodeAction (lit "refactor") code msgId sessId now e in
  optimizeMode (app e') = true /\
  exists p,
    pending e' = pending e ++ [p] /\
    Gemini.a_optimizeMode (p_args p) = false /\
    (forall req, p_call p = inr req ->
       Gemini.systemInstruction (Gemini.req_config req)
       = Gemini.systemInstructionOf (analyzeMode (app e)) false).
Proof.
  intros Hl Hopt e'. subst e'. unfold handleCodeAction.
  rewrite bool_decide_eq_false_2 by (vm_compute; discriminate).
  rewrite bool_decide_eq_true_2 by reflexivity.
  rewrite Hopt. cbn [negb onApp app pending].
  split; [reflexivity |].
  destruct (codeAction_texts_accepted code e Hl) as [_ Hre].
  rewrite (handleSend_dispatch _ msgId sessId now e Hre).
  eexists. split; [reflexivity |]. cbn [p_args Gemini.a_optimizeMode].
  split; [exact Hopt |].
  intros req Hreq. cbn [p_call] in Hreq. unfold Gemini.prepare in Hreq.
  destruct (negb (truthy_opt (apiKey e))); [discriminate |].
  injection Hreq as <-. cbn. rewrite Hopt. reflexivity.
Qed.

(** *** One call in flight *)

Lemma singleFlight_same (e e' : Engine) :
  isLoading (app e') = isLoading (app e) -> pending e' = pending e ->
  singleFlight e -> singleFlight e'.
Proof. unfold singleFlight. intros -> ->. auto. Qed.

Lemma singleFlight_idle (e : Engine) :
  singleFlight e -> isLoading (app e) = false -> pending e = [].
Proof. intros [[Hl _] | [_ Hp]] H; [congruence | exact Hp]. Qed.

Lemma handleSend_singleFlight (manualInput : option jsstring)
    (msgId sessId : jsstring) (now : Z) (e : Engine) :
  singleFlight e -> singleFlight (handleSend manualInput msgId sessId now e).
Proof.
  intros Hsf. destruct (sendRejected manualInput e) eqn:Hrej.
  - rewrite handleSend_rejected by exact Hrej. exact Hsf.
  - destruct (handleSend_accepted manualInput msgId sessId now e Hrej)
      as (_ & Hload & _ & p & Hp & _).
    unfold sendRejected in Hrej. apply orb_false_elim in Hrej as [_ Hidle].
    left. split; [exact Hload |].
    rewrite Hp, (singleFlight_idle e Hsf Hidle). reflexivity.
Qed.

Lemma handleEditSave_singleFlight (now : Z) (e : Engine) :
  singleFlight e -> isLoading (app e) = false ->
  singleFlight (handleEditSave now e).
Proof.
  intros Hsf Hidle. unfold handleEditSave.
  destruct (negb _ || negb _); [exact Hsf |].
  destruct (list_find _ (messages (app e))) as [[i x]|]; [| exact Hsf].
  left. rewrite app_persistEffect, pending_persistEffect. cbn.
  rewrite (singleFlight_idle e Hsf Hidle). split; reflexivity.
Qed.

Lemma resolve_singleFlight (k : nat) (r : Gemini.Remote) (botId : jsstring)
    (now : Z) (e : Engine) :
  singleFlight e -> singleFlight (resolve k r botId now e).
Proof.
  intros Hsf. destruct (pending e !! k) as [p|] eqn:Hp.
  - rewrite (resolve_appends k r botId now e p Hp).
    right. rewrite app_persistEffect, pending_persistEffect. cbn.
    split; [reflexivity |].
    destruct Hsf as [[_ Hlen] | [_ Hnil]]; [| rewrite Hnil in Hp; discriminate].
    destruct (pending e) as [|q [|q' l]]; try discriminate.
    apply lookup_lt_Some in Hp. simpl in Hp.
    replace k with 0 by lia. reflexivity.
  - unfold resolve. rewrite Hp. exact Hsf.
Qed.

Lemma step_singleFlight (e : Engine) (ev : Event) :
  singleFlight e -> saveWhileLoading e (Core ev) = false ->
  singleFlight (step e ev).
Proof.
  intros Hsf Hsave.
  destruct ev as [now|k|text| |now|text|mi msgId sessId now|k r botId now];
    simpl step.
  - rewrite startNewChat_creates_nothing.
    apply (singleFlight_same e); [reflexivity | reflexivity | exact Hsf].
  - unfold editButton. destruct (messages (app e) !! k) as [m|]; [| exact Hsf].
    destruct (_ && _); [| exact Hsf].
    apply (singleFlight_same e); [reflexivity | reflexivity | exact Hsf].
  - apply (singleFlight_same e); [reflexivity | reflexivity | exact Hsf].
  - apply (singleFlight_same e); [reflexivity | reflexivity | exact Hsf].
  - apply handleEditSave_singleFlight; [exact Hsf | exact Hsave].
  - apply (singleFlight_same e); [reflexivity | reflexivity | exact Hsf].
  - apply handleSend_singleFlight. exact Hsf.
  - apply resolve_singleFlight. exact Hsf.
Qed.

Lemma act_singleFlight (e : Engine) (a : Action) :
  singleFlight e -> saveWhileLoading e a = false -> singleFlight (act e a).
Proof.
  intros Hsf Hsave.
  destruct a as [ev|session shown now|confirmed sid now|index|files
                 |action code msgId sessId now| | |]; simpl act.
  - apply step_singleFlight; assumption.
  - unfold loadSession.
    destruct (sameConversation _ _ _);
      (apply (singleFlight_same e); [| | exact Hsf]);
      rewrite ?app_persistEffect, ?pending_persistEffect; reflexivity.
  - unfold deleteSession. destruct confirmed; [| exact Hsf].
    destruct (Storage.deleteSession sid (storage e)) as [[err|u] ls'].
    + apply (singleFlight_same e); [reflexivity | reflexivity | exact Hsf].
    + destruct (bool_decide _).
      * rewrite startNewChat_creates_nothing.
        apply (singleFlight_same e); [reflexivity | reflexivity | exact Hsf].
      * apply (singleFlight_same e); [reflexivity | reflexivity | exact Hsf].
  - apply (singleFlight_same e); [reflexivity | reflexivity | exact Hsf].
  - apply (singleFlight_same e); [| reflexivity | exact Hsf].
    unfold handleFileUpload. destruct files as [[|f files]|]; try reflexivity.
    destruct (readFiles _ _ _). reflexivity.
  - unfold handleCodeAction.
    destruct (bool_decide (action = lit "explain"));
      [apply handleSend_singleFlight; exact Hsf |].
    destruct (bool_decide (action = lit "refactor")); [| exact Hsf].
    destruct (negb (optimizeMode (app e)));
      [| apply handleSend_singleFlight; exact Hsf].
    match goal with
    | |- singleFlight (onApp _ ?E) =>
        apply (singleFlight_same E); [reflexivity | reflexivity |]
    end.
    apply handleSend_singleFlight. exact Hsf.
  - apply (singleFlight_same e); [reflexivity | reflexivity | exact Hsf].
  - apply (singleFlight_same e); [reflexivity | reflexivity | exact Hsf].
  - apply (singleFlight_same e); [reflexivity | reflexivity | exact Hsf].
Qed.

(** X19. As long as no edit is saved while a call is pending, nothing the
    user or the network does can put a second call in flight: from an
    engine in which [isLoading] is set exactly when one call is pending,
    and none is pending otherwise, every sequence of actions (sends,
    settles, edits opened and saved while idle, new chats, session loads
    and deletions, uploads, code actions, mode toggles) leads to such an
    engine again. *)
Theorem X19_single_call_in_flight_without_save_while_loading
    (actions : list Action) (e : Engine) :
  singleFlight e -> neverSavesWhileLoading e actions ->
  singleFlight (perform e actions).
Proof.
  revert e. induction actions as [|a actions IH]; intros e Hsf Hnever; simpl.
  - exact Hsf.
  - destruct Hnever as [Hsave Hnever].
    apply IH; [apply act_singleFlight; assumption | exact Hnever].
Qed.

(** *** The message sequence is an append and truncate log *)

Lemma appendOrTruncate_refl (l : list Message) : appendOrTruncate l l.
Proof. exists (length l). split; [lia |]. left. rewrite take_ge by lia. reflexivity. Qed.

Lemma appendOrTruncate_snoc (l : list Message) (m : Message) :
  appendOrTruncate l (l ++ [m]).
Proof.
  exists (length l). split; [lia |]. right. exists m.
  rewrite take_ge by lia. reflexivity.
Qed.

Lemma appendOrTruncate_nil (l : list Message) : appendOrTruncate l [].
Proof. exists 0. split; [lia |]. left. reflexivity. Qed.

Lemma handleSend_appendOrTruncate (manualInput : option jsstring)
    (msgId sessId : jsstring) (now : Z) (e : Engine) :
  appendOrTruncate (messages (app e))
    (messages (app (handleSend manualInput msgId sessId now e))).
Proof.
  destruct (sendRejected manualInput e) eqn:Hrej.
  - rewrite handleSend_rejected by exact Hrej. apply appendOrTruncate_refl.
  - destruct (handleSend_accepted manualInput msgId sessId now e Hrej) as (Hm & _).
    rewrite Hm. apply appendOrTruncate_snoc.
Qed.

Lemma handleEditSave_appendOrTruncate (now : Z) (e : Engine) :
  appendOrTruncate (messages (app e)) (messages (app (handleEditSave now e))).
Proof.
  unfold handleEditSave.
  destruct (negb _ || negb _); [apply appendOrTruncate_refl |].
  destruct (list_find _ (messages (app e))) as [[i x]|] eqn:Hf;
    [| apply appendOrTruncate_refl].
  apply list_find_Some in Hf as (Hi & _).
  rewrite app_persistEffect. cbn.
  rewrite (insert_last_of_take _ _ x) by exact Hi.
  exists i. split; [apply lookup_lt_Some in Hi; lia |]. right. eauto.
Qed.

Lemma step_appendOrTruncate (e : Engine) (ev : Event) :
  appendOrTruncate (messages (app e)) (messages (app (step e ev))).
Proof.
  destruct ev as [now|k|text| |now|text|mi msgId sessId now|k r botId now];
    simpl step.
  - rewrite startNewChat_creates_nothing. apply appendOrTruncate_nil.
  - unfold editButton. destruct (messages (app e) !! k) as [m|];
      [| apply appendOrTruncate_refl].
    destruct (_ && _); apply appendOrTruncate_refl.
  - apply appendOrTruncate_refl.
  - apply appendOrTruncate_refl.
  - apply handleEditSave_appendOrTruncate.
  - apply appendOrTruncate_refl.
  - apply handleSend_appendOrTruncate.
  - destruct (pending e !! k) as [p|] eqn:Hp.
    + rewrite (resolve_appends k r botId now e p Hp), app_persistEffect.
      apply appendOrTruncate_snoc.
    + unfold resolve. rewrite Hp. apply appendOrTruncate_refl.
Qed.

(** X20. The message sequence is only ever appended to at the tail or
    cut from some point on: whatever a single action does, the new
    sequence is a prefix of the old one with at most one message put
    behind it; messages are never reordered, and none is changed or
    inserted before the last place. The one exception is the load of a
    session, which replaces the sequence by the one of the session. *)
Theorem X20_messages_are_appended_or_truncated (e : Engine) (a : Action) :
  match a with
  | LoadSession session _ _ => messages (app (act e a)) = cs_messages session
  | _ => appendOrTruncate (messages (app e)) (messages (app (act e a)))
  end.
Proof.
  destruct a as [ev|session shown now|confirmed sid now|index|files
                 |action code msgId sessId now| | |]; simpl act.
  - apply step_appendOrTruncate.
  - unfold loadSession.
    destruct (sameConversation _ _ _); rewrite ?app_persistEffect; reflexivity.
  - unfold deleteSession. destruct confirmed; [| apply appendOrTruncate_refl].
    destruct (Storage.deleteSession sid (storage e)) as [[err|u] ls'];
      [apply appendOrTruncate_refl |].
    destruct (bool_decide _); [| apply appendOrTruncate_refl].
    rewrite startNewChat_creates_nothing. apply appendOrTruncate_nil.
  - apply appendOrTruncate_refl.
  - unfold handleFileUpload. destruct files as [[|f files]|];
      try apply appendOrTruncate_refl.
    cbn [onApp app]. destruct (readFiles _ _ _). apply appendOrTruncate_refl.
  - unfold handleCodeAction.
    destruct (bool_decide (action = lit "explain"));
      [apply handleSend_appendOrTruncate |].
    destruct (bool_decide (action = lit "refactor")); [| apply appendOrTruncate_refl].
    destruct (negb (optimizeMode (app e))); apply handleSend_appendOrTruncate.
  - apply appendOrTruncate_refl.
  - apply appendOrTruncate_refl.
  - apply appendOrTruncate_refl.
Qed.

(** *** Double submission *)

Lemma handleEditSave_rejects_or_closes (e : Engine) :
  (forall n, handleEditSave n e = e)
  \/ (forall n, editingMessageId (app (handleEditSave n e)) = None).
Proof.
  unfold handleEditSave.
  destruct (negb _ || negb _); [left; reflexivity |].
  destruct (list_find _ (messages (app e))) as [[i x]|]; [| left; reflexivity].
  right. intros n. rewrite app_persistEffect. reflexivity.
Qed.

(** X21. A second submission right behind the first does nothing: after
    an accepted send any further send is refused until the call settles,
    and saving an edit twice in a row is the same as saving it once, the
    first save having closed the edit box. *)
Theorem X21_second_submission_is_ignored (e : Engine) :
  (forall mi mi' id1 id2 s1 s2 n1 n2,
      sendRejected mi e = false ->
      handleSend mi' id2 s2 n2 (handleSend mi id1 s1 n1 e)
      = handleSend mi id1 s1 n1 e) /\
  (forall n1 n2, handleEditSave n2 (handleEditSave n1 e) = handleEditSave n1 e).
Proof.
  split.
  - intros mi mi' id1 id2 s1 s2 n1 n2 Hacc.
    apply handleSend_while_loading.
    destruct (handleSend_accepted mi id1 s1 n1 e Hacc) as (_ & Hload & _).
    exact Hload.
  - intros n1 n2. destruct (handleEditSave_rejects_or_closes e) as [Hrej | Hclosed].
    + rewrite (Hrej n1). apply Hrej.
    + apply handleEditSave_rejected. left. rewrite (Hclosed n1). reflexivity.
Qed.

(** *** Editing without a change *)

Lemma with_content_same (m : Message) : with_content m (msg_content m) = m.
Proof. destruct m. reflexivity. Qed.

(** X22. Regeneration does not depend on the text having changed:
    opening the edit box on a user message and saving it untouched cuts
    the sequence right behind that message, which stays as it is, and
    dispatches a new call. When the text of the message is blank (a
    message sent with attachments only), the untouched save is
    refused. *)
Theorem X22_saving_an_untouched_edit_regenerates (k : nat) (now : Z) (e : Engine)
    (m : Message) :
  messages (app e) !! k = Some m -> msg_role m = user ->
  isLoading (app e) = false ->
  editingMessageId (app e) <> Some (msg_id m) -> msg_id m <> [] ->
  (forall j m', j < k -> messages (app e) !! j = Some m' -> msg_id m' <> msg_id m) ->
  let opened := editButton k e in
  let saved := handleEditSave now opened in
  editingMessageId (app opened) = Some (msg_id m) /\
  editContent (app opened) = msg_content m /\
  (~ blank (msg_content m) ->
   messages (app saved) = take (S k) (messages (app e)) /\
   length (pending saved) = S (length (pending e)) /\
   isLoading (app saved) = true) /\
  (blank (msg_content m) -> saved = opened).
Proof.
  intros Hk Hrole Hidle Hnot Hid Hfirst opened saved.
  assert (Hopen : opened
            = {| app := handleEditClick m (app e); storage := storage e;
                 apiKey := apiKey e; pending := pending e |}).
  { subst opened. unfold editButton. rewrite Hk, Hrole, Hidle.
    rewrite bool_decide_eq_true_2 by exact Hnot.
    rewrite bool_decide_eq_true_2 by reflexivity. reflexivity. }
  split; [rewrite Hopen; reflexivity |].
  split; [rewrite Hopen; reflexivity |].
  split.
  - intros Hnb. subst saved. rewrite Hopen.
    match goal with
    | |- context [handleEditSave now ?E] =>
        destruct (handleEditSave_accepted now E k m (msg_id m))
          as [Happ Hpend]; try reflexivity; try assumption
    end.
    rewrite Happ. cbn in Hpend |- *. rewrite with_content_same.
    rewrite <- (take_S_r _ _ _ Hk). auto.
  - intros Hb. subst saved. apply handleEditSave_rejected. right. left.
    rewrite Hopen. exact Hb.
Qed.

(** *** Persistence of the active conversation *)

Lemma persistEffect_writes (now : Z) (e : Engine) (u : User) (sid : jsstring)
    (s0 : ChatSession) :
  currentUser (app e) = Some u -> currentSessionId (app e) = Some sid ->
  sid <> [] -> messages (app e) <> [] ->
  ls_writable (storage e) = true -> storedSession sid (storage e) = Some s0 ->
  storedSession sid (storage (persistEffect now e))
  = Some (overwrite (messages (app e)) now s0).
Proof.
  intros Hu Hs Hsid Hm Hw Hst.
  rewrite (persistEffect_session now e u sid Hu Hs Hsid Hm).
  apply (updateSession_reads_back sid _ now _ s0 Hst Hw).
Qed.

Lemma snoc_not_nil {A} (l : list A) (x : A) : l ++ [x] <> [].
Proof. destruct l; discriminate. Qed.

(** X23. In a conversation that has a stored session (on a writable
    store), the store follows the screen: after every accepted send,
    every settled call and every accepted edit, the stored session of
    the conversation holds exactly the message sequence shown, with the
    time of that write, and keeps its id, owner and title. *)
Theorem X23_stored_session_follows_the_messages (e : Engine) (u : User)
    (sid : jsstring) (s0 : ChatSession) :
  currentUser (app e) = Some u -> currentSessionId (app e) = Some sid ->
  sid <> [] -> ls_writable (storage e) = true ->
  storedSession sid (storage e) = Some s0 ->
  (forall mi msgId sessId now,
      sendRejected mi e = false ->
      let e' := handleSend mi msgId sessId now e in
      storedSession sid (storage e') = Some (overwrite (messages (app e')) now s0)) /\
  (forall k r botId now p,
      pending e !! k = Some p ->
      let e' := resolve k r botId now e in
      storedSession sid (storage e') = Some (overwrite (messages (app e')) now s0)) /\
  (forall now,
      let e' := handleEditSave now e in
      length (pending e') = S (length (pending e)) ->
      storedSession sid (storage e') = Some (overwrite (messages (app e')) now s0)).
Proof.
  intros Hu Hs Hsid Hw Hst. split; [| split].
  - intros mi msgId sessId now Hacc e'. subst e'. unfold handleSend.
    unfold sendRejected, textToSend in Hacc. rewrite Hacc.
    cbv beta iota zeta. rewrite Hu, Hs.
    destruct sid as [|c sid]; [congruence |]. cbn [truthy_opt truthy negb].
    destruct (negb (truthy_opt mi)); rewrite app_persistEffect;
      (apply (persistEffect_writes now _ u (c :: sid) s0);
       [exact Hu | exact Hs | exact Hsid | apply snoc_not_nil | exact Hw | exact Hst]).
  - intros k r botId now p Hp e'. subst e'.
    rewrite (resolve_appends k r botId now e p Hp), app_persistEffect.
    apply (persistEffect_writes now _ u sid s0);
      [exact Hu | exact Hs | exact Hsid | apply snoc_not_nil | exact Hw | exact Hst].
  - intros now e' Hgrew. subst e'. revert Hgrew. unfold handleEditSave.
    destruct (negb _ || negb _); [intros; lia |].
    destruct (list_find _ (messages (app e))) as [[i x]|] eqn:Hf; [| intros; lia].
    intros _. rewrite app_persistEffect.
    apply (persistEffect_writes now _ u sid s0);
      [exact Hu | exact Hs | exact Hsid | | exact Hw | exact Hst].
    cbn. apply list_find_Some in Hf as (Hi & _).
    rewrite (insert_last_of_take _ _ x) by exact Hi. apply snoc_not_nil.
Qed.

Lemma list_find_snoc_fresh {A} (P : A -> Prop) `{!forall x, Decision (P x)}
    (l : list A) (x : A) :
  Forall (fun y => ~ P y) l -> P x ->
  list_find P (l ++ [x]) = Some (length l, x).
Proof.
  intros Hl Hx. apply list_find_Some. split; [| split].
  - apply list_lookup_middle. reflexivity.
  - exact Hx.
  - intros j y Hj Hlt. rewrite lookup_app_l in Hj by exact Hlt.
    rewrite Forall_forall in Hl. apply Hl. apply list_elem_of_lookup. eauto.
Qed.

(** X24. The first accepted send of a conversation without session, for
    a fresh non-empty session id on a writable store, leaves exactly one
    more stored session, behind the earlier ones: it has the new id, the
    user's id, the title of the text sent, and as messages the sequence
    shown after the send. The placeholder message of id "temp" that
    [createSession] is called with does not stay in the store. *)
Theorem X24_first_send_stores_the_shown_messages (manualInput : option jsstring)
    (msgId sessId : jsstring) (now : Z) (e : Engine) (u : User) :
  noSession e -> currentUser (app e) = Some u ->
  sendRejected manualInput e = false ->
  ls_writable (storage e) = true -> sessId <> [] ->
  Forall (fun s => cs_id s <> sessId) (stored (storage e)) ->
  let e' := handleSend manualInput msgId sessId now e in
  stored (storage e')
  = stored (storage e)
      ++ [ {| cs_id := sessId; cs_userId := user_id u;
              cs_title := sessionTitle (textToSend manualInput e);
              cs_messages := messages (app e) ++ [userMessageOf manualInput msgId now e];
              cs_lastUpdated := now |} ].
Proof.
  intros Hn Hu Hacc Hw Hsid Hfresh e'. subst e'. unfold handleSend.
  unfold sendRejected, textToSend in Hacc. rewrite Hacc.
  cbv beta iota zeta. rewrite Hu.
  unfold noSession in Hn. rewrite Hn. cbn [negb].
  rewrite createSession_total. cbv beta iota zeta.
  fold (textToSend manualInput e).
  match goal with
  | |- context [persistEffect now ?E] =>
      rewrite (persistEffect_session now E u sessId);
        [ | cbn; destruct (negb (truthy_opt manualInput)); exact Hu
          | reflexivity
          | exact Hsid
          | cbn; destruct (negb (truthy_opt manualInput)); apply snoc_not_nil ]
  end.
  cbn [storage app].
  set (newSession := {| cs_id := sessId; cs_userId := user_id u;
                        cs_title := _; cs_messages := _; cs_lastUpdated := now |}).
  set (ls1 := snd (saveLocalSessions (stored (storage e) ++ [newSession]) (storage e))).
  assert (Hst1 : stored ls1 = stored (storage e) ++ [newSession]).
  { subst ls1. rewrite stored_after_save, Hw. reflexivity. }
  assert (Hw1 : ls_writable ls1 = true).
  { subst ls1. rewrite saveLocalSessions_total, Hw. reflexivity. }
  assert (Hf : list_find (fun s => cs_id s = sessId) (stored ls1)
               = Some (length (stored (storage e)), newSession)).
  { rewrite Hst1. apply list_find_snoc_fresh; [exact Hfresh | reflexivity]. }
  rewrite (updateSession_found _ _ _ _ _ _ Hf).
  rewrite stored_after_save, Hw1, Hst1.
  replace (length (stored (storage e))) with (length (stored (storage e)) + 0) by lia.
  rewrite alter_app_r. cbn [alter list_alter].
  f_equal. f_equal. unfold overwrite, userMessageOf, textToSend. cbn.
  destruct (negb (truthy_opt manualInput)); reflexivity.
Qed.

(** *** Switching and deleting sessions *)

(** X25. Loading a session shows its messages and makes it the current
    session, without looking at whether a call is pending (the pending
    calls and the loading flag stay as they are). When the load changes
    the conversation on screen (another session id, or another array of
    messages than the one shown), it is followed by a write: the stored
    session of that id gets the messages of the copy that was loaded and
    a new time of update, whatever it held before. A copy without
    messages writes nothing, and a click on the session that is already
    shown (same id, same array of messages) changes nothing at all. *)
Theorem X25_loadSession_shows_and_rewrites (session : ChatSession) (shown : bool)
    (now : Z) (e : Engine) :
  let e' := loadSession session shown now e in
  messages (app e') = cs_messages session /\
  currentSessionId (app e') = Some (cs_id session) /\
  pending e' = pending e /\ isLoading (app e') = isLoading (app e) /\
  (forall u s0,
      shown = false \/ currentSessionId (app e) <> Some (cs_id session) \/
      cs_messages session <> messages (app e) ->
      currentUser (app e) = Some u -> cs_id session <> [] ->
      cs_messages session <> [] -> ls_writable (storage e) = true ->
      storedSession (cs_id session) (storage e) = Some s0 ->
      storedSession (cs_id session) (storage e')
      = Some {| cs_id := cs_id s0; cs_userId := cs_userId s0; cs_title := cs_title s0;
                cs_messages := cs_messages session; cs_lastUpdated := now |}) /\
  (cs_messages session = [] -> storage e' = storage e) /\
  (shown = true -> cs_messages session = messages (app e) ->
   currentSessionId (app e) = Some (cs_id session) ->
   e' = e).
Proof.
  cbv zeta. unfold loadSession.
  split; [destruct (sameConversation _ _ _); rewrite ?app_persistEffect; reflexivity |].
  split; [destruct (sameConversation _ _ _); rewrite ?app_persistEffect; reflexivity |].
  split; [destruct (sameConversation _ _ _); rewrite ?pending_persistEffect; reflexivity |].
  split; [destruct (sameConversation _ _ _); rewrite ?app_persistEffect; reflexivity |].
  split; [| split].
  - intros u s0 Hchanged Hu Hid Hm Hw Hst.
    assert (Hrun : sameConversation session shown e = false).
    { unfold sameConversation. destruct Hchanged as [-> | [Hne | Hne]];
        [reflexivity | |].
      - rewrite (bool_decide_eq_false_2 _ Hne). apply andb_false_r.
      - rewrite (bool_decide_eq_false_2 _ Hne), andb_false_r. reflexivity. }
    rewrite Hrun.
    match goal with
    | |- context [persistEffect now ?E] =>
        rewrite (persistEffect_writes now E u (cs_id session) s0);
          [reflexivity | exact Hu | reflexivity | exact Hid | exact Hm
           | exact Hw | exact Hst]
    end.
  - intros Hnil. destruct (sameConversation _ _ _); [reflexivity |].
    unfold persistEffect. cbn [app currentUser currentSessionId
      setMessages setCurrentSessionId messages].
    rewrite Hnil. destruct (currentUser (app e)); [| reflexivity].
    rewrite andb_false_r. reflexivity.
  - intros -> Hm Hcur. unfold sameConversation.
    rewrite (bool_decide_eq_true_2 _ Hm), (bool_decide_eq_true_2 _ Hcur), Hm, <- Hcur.
    destruct e as [[] ? ? ?]. reflexivity.
Qed.

(** X26. Deleting a session asks first: without the confirmation nothing
    changes. With it, on a writable store, no stored session has the
    deleted id afterwards. When the deleted session is the current one
    the conversation is reset to an empty one without session; when it is
    another one the conversation on screen is untouched. In both cases a
    pending call stays pending. *)
Theorem X26_deleteSession_resets_only_the_current (confirmed : bool)
    (sid : jsstring) (now : Z) (e : Engine) :
  let e' := App.deleteSession confirmed sid now e in
  (confirmed = false -> e' = e) /\
  (confirmed = true ->
   pending e' = pending e /\
   (ls_writable (storage e) = true ->
    Forall (fun s => cs_id s <> sid) (stored (storage e'))) /\
   (currentSessionId (app e) = Some sid ->
    messages (app e') = [] /\ currentSessionId (app e') = None) /\
   (currentSessionId (app e) <> Some sid -> app e' = app e)).
Proof.
  cbv zeta. unfold App.deleteSession. split.
  - intros ->. reflexivity.
  - intros ->. rewrite deleteSession_total.
    destruct (bool_decide (currentSessionId (app e) = Some sid)) eqn:Hcur.
    + rewrite startNewChat_creates_nothing. cbn [pending storage app].
      split; [reflexivity |]. split; [| split].
      * intros Hw. rewrite stored_after_save, Hw.
        apply Forall_forall. intros s Hs. apply list_elem_of_filter in Hs. tauto.
      * intros _. split; reflexivity.
      * intros Hne. apply bool_decide_eq_true in Hcur. congruence.
    + cbn [pending storage app].
      split; [reflexivity |]. split; [| split].
      * intros Hw. rewrite stored_after_save, Hw.
        apply Forall_forall. intros s Hs. apply list_elem_of_filter in Hs. tauto.
      * intros Heq. apply bool_decide_eq_false in Hcur. congruence.
      * intros _. reflexivity.
Qed.

(** X27. A pending call is not cancelled by starting a new chat: the
    call stays pending and the loading flag set, and when it settles its
    message is appended to the new, empty conversation, which has no
    session, so that nothing is written to the store. *)
Theorem X27_reply_after_new_chat_lands_in_the_new_chat (k : nat)
    (r : Gemini.Remote) (botId : jsstring) (now now' : Z) (e : Engine) (p : Pending) :
  pending e !! k = Some p ->
  let fresh := startNewChat now e in
  let settled := resolve k r botId now' fresh in
  pending fresh = pending e /\
  isLoading (app fresh) = isLoading (app e) /\
  (exists m, messages (app settled) = [m] /\ msg_role m = model) /\
  currentSessionId (app settled) = None /\
  storage settled = storage e.
Proof.
  intros Hp fresh settled. subst settled fresh.
  rewrite startNewChat_creates_nothing.
  split; [reflexivity |]. split; [reflexivity |].
  match goal with
  | |- context [resolve k r botId now' ?E] =>
      rewrite (resolve_appends k r botId now' E p Hp);
      rewrite (persistEffect_noSession now' _) by reflexivity
  end.
  split; [eexists; split; reflexivity |]. split; reflexivity.
Qed.

End MoreAppFacts.

(** ** The further properties at concrete inputs *)

Module MoreWitnesses.

Import Utils Storage App StorageFacts AppFacts UtilsFacts MoreStorageFacts
       MoreAppFacts Scenarios.

Ltac by_decide :=
  match goal with |- ?P => apply (@bool_decide_unpack P _) end; vm_compute; exact I.

(** The attachment made of [doorPicture] carries its payload. *)
Lemma X1_witness :
  exists att,
    fileToAttachment doorPicture ≫= asAttachment = Some att /\
    att_data att = lit "iVBORw0KGgo=" /\
    imageSrc att = dataURL (lit "image/png") (lit "iVBORw0KGgo=").
Proof.
  destruct (X1_fileToAttachment_keeps_payload doorPicture
              (lit "image/png") (lit "iVBORw0KGgo=") eq_refl)
    as (att & Hatt & _ & _ & Hdata & Hsrc); [by_decide | by_decide |].
  exists att. split; [exact Hatt |]. split; [exact Hdata |].
  apply Hsrc. reflexivity.
Defined.

Lemma X2_witness :
  exists enc, fileToAttachment emptyNote = Some enc /\ enc_data enc = None.
Proof.
  destruct (X2_fileToAttachment_without_comma emptyNote (lit "data:") eq_refl)
    as (enc & Henc & Hdata & _); [by_decide |].
  exists enc. split; assumption.
Defined.

Lemma X3_witness :
  exists ls',
    Storage.deleteSession (lit "a") twoSessions = (inr tt, ls') /\
    Forall (fun s => cs_id s <> lit "a") (stored ls').
Proof.
  destruct (X3_deleteSession_removes_every_match (lit "a") twoSessions eq_refl)
    as (ls' & Hdel & Hgone & _).
  exists ls'. split; assumption.
Defined.

Lemma X5_witness :
  storedSession (lit "a")
    (snd (updateSession (lit "a") [userMsg "u1" "make a door" 1] 30 twoSessions))
  = Some {| cs_id := lit "a"; cs_userId := lit "guest_dev";
            cs_title := lit "make a door";
            cs_messages := [userMsg "u1" "make a door" 1]; cs_lastUpdated := 30 |}.
Proof.
  exact (X5_updateSession_read_back (lit "a") [userMsg "u1" "make a door" 1] 30
           twoSessions doorSession eq_refl eq_refl).
Defined.

(** The door session, older than the gate session, comes first once it
    is updated. *)
Lemma X7_witness :
  exists rest,
    fst (getSessions (lit "guest_dev")
           (snd (updateSession (lit "a") [] 30 twoSessions)))
    = inr (overwrite [] 30 doorSession :: rest).
Proof.
  apply (X7_updated_session_is_listed_first (lit "a") (lit "guest_dev") [] 30
           twoSessions doorSession eq_refl eq_refl).
  repeat constructor.
Defined.

Lemma X10_witness :
  getSessions (lit "guest_dev") garbledStorage = (inr [], garbledStorage).
Proof.
  exact (proj1 (X10_unparsable_item_reads_as_empty (lit "a") (lit "guest_dev") []
                  (userMsg "u1" "make a door" 1) 5 garbledStorage eq_refl)).
Defined.



Lemma X15_witness :
  let e := initial emptyStorage None in
  let e1 := handleSend (Some (lit "make a door")) (lit "u1") (lit "s1") 1 e in
  isLoading (app (resolve 0 (Gemini.Responded (Some (lit "a door"))) (lit "m1") 2 e1))
  = false.
Proof.
  cbv zeta.
  exact (proj1 (proj2 (proj2
    (X15_send_without_key_ends_in_error (Some (lit "make a door"))
       (lit "u1") (lit "s1") (lit "m1") 1 2
       (Gemini.Responded (Some (lit "a door"))) (initial emptyStorage None)
       eq_refl eq_refl)))).
Defined.

Lemma X16_witness :
  exists m,
    messages (app (resolve 0 (Gemini.Responded None) (lit "m2") 21
                     awaitingInDoorSession))
    = messages (app awaitingInDoorSession) ++ [m] /\
    msg_content m = lit "No response generated.".
Proof.
  destruct (X16_settled_call_appends_nonempty_model_message 0
              (Gemini.Responded None) (lit "m2") 21 awaitingInDoorSession _ eq_refl)
    as (m & Hm & _ & _ & _ & _ & Hnone).
  exists m. split; [exact Hm |].
  eapply Hnone; [reflexivity | left; reflexivity].
Defined.

Lemma X17_witness :
  length (pending (handleCodeAction (lit "explain") (lit "print(1)")
                     (lit "u2") (lit "s9") 20 inDoorSession)) = 1.
Proof.
  destruct (proj1 (X17_code_action_sends_when_idle (lit "explain") (lit "print(1)")
                     (lit "u2") (lit "s9") 20 inDoorSession eq_refl)
              (or_introl eq_refl))
    as (m & _ & _ & _ & Hlen & _).
  exact Hlen.
Defined.

Lemma X18_witness :
  optimizeMode (app (handleCodeAction (lit "refactor") (lit "print(1)")
                       (lit "u2") (lit "s9") 20 inDoorSession)) = true.
Proof.
  exact (proj1 (X18_refactor_request_predates_optimize_mode (lit "print(1)")
                  (lit "u2") (lit "s9") 20 inDoorSession eq_refl eq_refl)).
Defined.

Lemma X19_witness :
  singleFlight (perform (initial emptyStorage someKey) busyAfternoon).
Proof.
  apply X19_single_call_in_flight_without_save_while_loading.
  - right. split; reflexivity.
  - vm_compute. repeat split.
Defined.

Lemma X22_witness :
  messages (app (handleEditSave 9 (editButton 2 (showing twoRounds None []))))
  = take 3 twoRounds.
Proof.
  refine (proj1 (proj1 (proj2 (proj2
    (X22_saving_an_untouched_edit_regenerates 2 9 (showing twoRounds None [])
       (userMsg "u2" "make it red" 3) eq_refl eq_refl eq_refl _ _ _))) _)).
  - discriminate.
  - discriminate.
  - intros j m Hj Hm Hid. destruct j as [|[|j]]; [| | lia];
      vm_compute in Hm; injection Hm as <-; vm_compute in Hid; discriminate.
  - apply not_blank_of_trim. vm_compute. reflexivity.
Defined.

Lemma X23_witness :
  cs_messages <$> storedSession (lit "a") (storage awaitingInDoorSession)
  = Some (messages (app awaitingInDoorSession)).
Proof.
  pose proof (proj1 (X23_stored_session_follows_the_messages inDoorSession guest
                       (lit "a") doorSession eq_refl eq_refl
                       ltac:(discriminate) eq_refl eq_refl)
                (Some (lit "make it red")) (lit "u2") (lit "s9") 20%Z eq_refl) as H.
  cbv zeta in H. unfold awaitingInDoorSession. rewrite H. reflexivity.
Defined.

Lemma X24_witness :
  let e := initial emptyStorage someKey in
  cs_messages <$> stored (storage
     (handleSend (Some (lit "make a door")) (lit "u1") (lit "s1") 1 e))
  = [[userMsg "u1" "make a door" 1]].
Proof.
  cbv zeta.
  rewrite (X24_first_send_stores_the_shown_messages (Some (lit "make a door"))
             (lit "u1") (lit "s1") 1 (initial emptyStorage someKey) guest
             eq_refl eq_refl eq_refl eq_refl ltac:(discriminate) ltac:(constructor)).
  reflexivity.
Defined.

Lemma X27_witness :
  currentSessionId
    (app (resolve 0 (Gemini.Responded (Some (lit "a red door"))) (lit "m2") 22
            (startNewChat 21 awaitingInDoorSession)))
  = None.
Proof.
  destruct (X27_reply_after_new_chat_lands_in_the_new_chat 0
              (Gemini.Responded (Some (lit "a red door"))) (lit "m2") 21 22
              awaitingInDoorSession _ eq_refl)
    as (_ & _ & _ & Hnone & _).
  exact Hnone.
Defined.

End MoreWitnesses.
